(** * sayn/database/bigquery.py: DDL validation, introspection and
      table reconciliation of the BigQuery backend

    A shallow embedding of the module [sayn.database.bigquery]: the pydantic
    validators of class [DDL], the methods [feature], [_introspect],
    [create_table] and [move_table] of class [Bigquery], and the module
    function [fully_qualify].  Python dictionaries that are only looked up
    are finite maps ([gmap]); dictionaries that are iterated are association
    lists in insertion order; Python sets of strings are [gset string];
    exceptions are values of [exn] returned through [result]. *)

From stdpp Require Import base option list gmap sets strings sorting.
From Stdlib Require Import Ascii.

(** ** Python values and exceptions *)

(** The line feed, written [\n] in the source. *)
Definition LF : string := String "010"%char "".

(** A value stored in a field of [DDL.Properties]: [None], a [str] or a
    [list] of [str]. *)
Inductive field_value :=
| FNone
| FStr (s : string)
| FList (l : list string).

(** The objects that reach [set(...)] in [validate_properties]: a [str], or
    the pair [(field name, field value)] that iterating a pydantic model
    yields. *)
Inductive pyobj :=
| PStr (s : string)
| PItem (k : string) (x : field_value).

#[global] Instance field_value_eq_dec : EqDecision field_value.
Proof. solve_decision. Defined.

#[global] Instance pyobj_eq_dec : EqDecision pyobj.
Proof. solve_decision. Defined.

(** The exceptions the module raises, or that its expressions raise.
    - [ValueError_duplicate_columns dupes]:
      [ValueError(f"Duplicate columns: {','.join(dupes)}")]; the payload is
      the set [dupes] whose members the message lists (Python fixes no
      iteration order for a set).
    - [ValueError_cluster_not_in_ddl missing_columns]:
      [ValueError(f'Cluster contains columns not specified in the ddl:
      "{missing_columns}"')].
    - [ValueError_three_levels]:
      [ValueError("3 level db objects are not currently supported")].
    - [TypeError_unhashable_list]: [TypeError("unhashable type: 'list'")],
      raised by [set(...)] on an element that holds a list.
    - [TypeError_len_of_None]: [len(None)].
    - [DatabaseError msg]: whatever [read_data] raises. *)
Inductive exn :=
| ValueError_duplicate_columns (dupes : gset string)
| ValueError_cluster_not_in_ddl (missing_columns : list pyobj)
| ValueError_three_levels
| TypeError_unhashable_list
| TypeError_len_of_None
| DatabaseError (msg : string).

Inductive result (A : Type) :=
| Ok (a : A)
| Raise (e : exn).
Arguments Ok {A} a.
Arguments Raise {A} e.

Definition result_bind {A B} (r : result A) (k : A → result B) : result B :=
  match r with
  | Ok a => k a
  | Raise e => Raise e
  end.

(** [hash(o)]: a tuple hashes its members, and a list has no hash. *)
Definition hashable (o : pyobj) : bool :=
  match o with
  | PStr _ => true
  | PItem _ (FList _) => false
  | PItem _ _ => true
  end.

(** [set(l)] for an iterable [l] of such objects: every element is hashed. *)
Definition py_set (l : list pyobj) : result (list pyobj) :=
  if forallb hashable l then Ok (remove_dups l) else Raise TypeError_unhashable_list.

(** [x or ""] on an optional string: [None] and [""] are falsy. *)
Definition or_empty_str (x : option string) : string :=
  match x with
  | Some s => if decide (s = "") then "" else s
  | None => ""
  end.

(** [set(x or set())] on an optional list of strings: [None] and [[]] are
    falsy. *)
Definition set_or_empty (x : option (list string)) : gset string :=
  match x with
  | Some (c :: l) => list_to_set (c :: l)
  | Some [] => ∅
  | None => ∅
  end.

(** [f"{x}"] for an optional string: [None] prints as [None]. *)
Definition format_opt (x : option string) : string :=
  match x with
  | Some s => s
  | None => "None"
  end.

(** [collections.Counter(l)]: how often each element occurs. *)
Definition Counter (l : list string) : gmap string nat :=
  foldl (λ m k, <[k := S (default 0 (m !! k))]> m) ∅ l.

(** How often [x] occurs in [l], the reading [Counter] is checked against. *)
Definition occurrences (x : string) (l : list string) : nat :=
  length (filter (λ y, y = x) l).

(** ** Class [DDL] *)

Module DDL.

(** Modelled from the spec: the class [Columns] is imported from the
    package and is not part of this module; section 3 gives a column as
    [{name: string, type: optional string}], identified by its name. *)
Record Columns := {
  name : string;
  type : option string
}.

(** [class Properties(BaseModel)]. *)
Record Properties := {
  partition : option string;
  cluster : option (list string)
}.

(** An element of the raw [columns] list: [Union[str, Columns]]. *)
Inductive raw_column :=
| RawStr (c : string)
| RawColumns (c : Columns).

(** [transform_str_cols] (a [pre] validator), followed by pydantic's
    parsing of [{"name": c}] into [Columns]. *)
Definition transform_str_cols (v : list raw_column) : list Columns :=
  (λ c, match c with
        | RawStr c => {| name := c; type := None |}
        | RawColumns c => c
        end) <$> v.

(** The name a raw column declares, whichever way it is written. *)
Definition raw_name (c : raw_column) : string :=
  match c with
  | RawStr c => c
  | RawColumns c => name c
  end.

(** [columns_unique]. *)
Definition columns_unique (v : list Columns) : result (list Columns) :=
  let dupes : gset string :=
    dom (filter (λ kv : string * nat, 1 < kv.2) (Counter (name <$> v))) in
  if decide (0 < size dupes)
  then Raise (ValueError_duplicate_columns dupes)
  else Ok v.

(** Iterating a [Properties] instance: pydantic's [BaseModel.__iter__]
    yields the pairs [(field name, value)] in declaration order. *)
Definition Properties_iter (v : Properties) : list pyobj :=
  [ PItem "partition" (from_option FStr FNone (partition v));
    PItem "cluster" (from_option FList FNone (cluster v)) ].

(** [validate_properties(cls, v, values)]; [values_columns] is
    [values.get("columns")], [None] when the columns did not validate. *)
Definition validate_properties (v : option Properties)
    (values_columns : option (list Columns)) : result (option Properties) :=
  match v with
  | Some p =>
      match cluster p with
      | Some _ =>
          match values_columns with
          | None => Raise TypeError_len_of_None
          | Some columns =>
              if decide (0 < length columns) then
                result_bind (py_set (Properties_iter p)) (λ set_v,
                result_bind (py_set (PStr ∘ name <$> columns)) (λ set_names,
                let missing_columns := list_difference set_v set_names in
                if decide (0 < length missing_columns)
                then Raise (ValueError_cluster_not_in_ddl missing_columns)
                else Ok v))
              else Ok v
          end
      | None => Ok v
      end
  | None => Ok v
  end.

(** The cluster columns that are not among the declared columns, following
    the words of section 4.1; [validate_properties] is compared with it. *)
Definition missing_cluster_columns (cluster : list string) (columns : list Columns)
    : gset string :=
  list_to_set cluster ∖ list_to_set (name <$> columns).

End DDL.

(** ** [fully_qualify] *)

Definition fully_qualify (name : string) (schema : option string) : string :=
  match schema with
  | Some schema => (schema +:+ ".") +:+ name
  | None => "" +:+ name
  end.

(** The qualified name in the words of section 4.5: the namespace, a dot
    and the object name when the namespace is present and not empty, the
    object name alone otherwise.  [fully_qualify] is compared with it. *)
Definition qualify_spec (name : string) (namespace : option string) : string :=
  match namespace with
  | Some ns => if decide (ns = "") then name else ns +:+ "." +:+ name
  | None => name
  end.

(** ** Class [Bigquery] *)

Module Bigquery.

(** One element of the [columns] array of a catalog row:
    [STRUCT(column_name, is_partition, clustering_ordinal_position)]; the
    last two may be SQL [NULL]. *)
Record column_row := {
  column_name : string;
  is_partition : option bool;
  clustering_ordinal_position : option Z
}.

(** One row of the catalog query: [name], [type] and [columns]. *)
Record catalog_row := {
  row_name : string;
  row_type : string;
  row_columns : list column_row
}.

(** A value of the local dictionary [db_objects]:
    [{"type": ..., "columns": ...}]. *)
Record db_object := {
  db_type : string;
  db_columns : list column_row
}.

(** A value of [self._requested_objects[dataset]]: a dictionary with the
    key ["type"] and, when set, the keys ["partition"] and ["cluster"].
    Each field is what [.get(key)] returns, so an absent key and the
    empty dictionary read as [None]. *)
Record db_info := {
  info_type : option string;
  info_partition : option string;
  info_cluster : option (list string)
}.

Definition empty_info : db_info :=
  {| info_type := None; info_partition := None; info_cluster := None |}.

(** The keyword arguments [**ddl] of [create_table]: the three keys the
    method reads, each absent ([None]) or present, and the remaining
    ones, which are only forwarded to the template. *)
Record ddl_kwargs := {
  ddl_columns : option (list DDL.Columns);
  ddl_partition : option string;
  ddl_cluster : option (list string);
  ddl_others : list (string * string)
}.

(** The keyword arguments of [template.render] in [create_table]. *)
Record render_args := {
  arg_table_name : string;
  arg_full_name : string;
  arg_view_exists : bool;
  arg_table_exists : bool;
  arg_select : option string;
  arg_replace : bool;
  arg_can_replace_table : bool;
  arg_needs_cascade : bool;
  arg_cannot_specify_ddl_select : bool;
  arg_all_columns_have_type : nat;
  arg_ddl : ddl_kwargs
}.

(** The instance: the attributes the methods read or write, and the
    queries handed to [read_data] so far, oldest first. *)
Record self := {
  dataset : option string;
  _requested_objects : gmap (option string) (gmap string db_info);
  issued_queries : list string
}.

Definition set_requested_objects (s : self)
    (ro : gmap (option string) (gmap string db_info)) : self :=
  {| dataset := dataset s; _requested_objects := ro;
     issued_queries := issued_queries s |}.

Definition log_query (s : self) (query : string) : self :=
  {| dataset := dataset s; _requested_objects := _requested_objects s;
     issued_queries := issued_queries s ++ [query] |}.

(** [feature]. *)
Definition feature (feature : string) : bool :=
  bool_decide (feature ∈ ["CAN REPLACE TABLE"; "CAN REPLACE VIEW"; "CANNOT CHANGE SCHEMA"]).

(** *** Statements that mutate the instance *)

(** A method body: it runs on the instance, returns or raises, and leaves
    the instance as mutated up to that point. *)
Definition M (A : Type) : Type := self → result A * self.

Definition ret {A} (a : A) : M A := λ s, (Ok a, s).

Definition raise {A} (e : exn) : M A := λ s, (Raise e, s).

Definition bind {A B} (c : M A) (k : A → M B) : M B :=
  λ s, match c s with
       | (Ok a, s') => k a s'
       | (Raise e, s') => (Raise e, s')
       end.

(** [for x in xs: body(x)]. *)
Fixpoint for_each {X} (xs : list X) (body : X → M unit) : M unit :=
  match xs with
  | [] => ret ()
  | x :: xs' => bind (body x) (λ _, for_each xs' body)
  end.

(** *** [_introspect] *)

(** The text of the catalog query for the dataset [name]. *)
Definition catalog_query (name : string) (objects : list string) : string :=
  "SELECT t.table_name AS name
                                  , t.table_type AS type
                                  , array_agg(STRUCT(c.column_name, c.is_partitioning_column = 'YES' AS is_partition, c.clustering_ordinal_position)
                                              ORDER BY clustering_ordinal_position) AS columns
                               FROM " +:+ name +:+ ".INFORMATION_SCHEMA.TABLES t
                               JOIN " +:+ name +:+ ".INFORMATION_SCHEMA.COLUMNS c
                                 ON c.table_name = t.table_name
                              WHERE t.table_name IN ("
    +:+ String.concat ", " ((λ ts, "'" +:+ ts +:+ "'") <$> objects) +:+ ")
                              GROUP BY 1,2
                        ".

(** [{o["name"]: {"type": o["type"], "columns": o["columns"]} for o in rows}]:
    a later row replaces an earlier one of the same name. *)
Definition db_objects_of (rows : list catalog_row) : gmap string db_object :=
  foldl (λ m o, <[row_name o := {| db_type := row_type o; db_columns := row_columns o |}]> m)
        ∅ rows.

(** [self._requested_objects[dataset][obj_name] = info]. *)
Definition store_info (dataset : option string) (obj_name : string) (info : db_info)
    (ro : gmap (option string) (gmap string db_info))
    : gmap (option string) (gmap string db_info) :=
  alter (λ objs, <[obj_name := info]> objs) dataset ro.

(** [self._requested_objects[dataset][obj_name][key] = ...], as the
    update [f] of the stored dictionary. *)
Definition update_info (dataset : option string) (obj_name : string)
    (f : db_info → db_info) (ro : gmap (option string) (gmap string db_info))
    : gmap (option string) (gmap string db_info) :=
  alter (alter f obj_name) dataset ro.

Definition set_type (t : string) (info : db_info) : db_info :=
  {| info_type := Some t; info_partition := info_partition info;
     info_cluster := info_cluster info |}.

Definition set_partition (p : string) (info : db_info) : db_info :=
  {| info_type := info_type info; info_partition := Some p;
     info_cluster := info_cluster info |}.

Definition set_cluster (c : list string) (info : db_info) : db_info :=
  {| info_type := info_type info; info_partition := info_partition info;
     info_cluster := Some c |}.

(** The body of [for c in db_object["columns"]], on the requested objects
    and the local list [cluster_cols]. *)
Definition column_step (dataset : option string) (obj_name : string)
    (acc : gmap (option string) (gmap string db_info) * list string) (c : column_row)
    : gmap (option string) (gmap string db_info) * list string :=
  let ro := if decide (is_partition c = Some true)
            then update_info dataset obj_name (set_partition (column_name c)) acc.1
            else acc.1 in
  let cluster_cols := match clustering_ordinal_position c with
                      | Some _ => acc.2 ++ [column_name c]
                      | None => acc.2
                      end in
  (ro, cluster_cols).

(** The body of [for obj_name in objects]. *)
Definition introspect_object (db_objects : gmap string db_object)
    (dataset : option string) (ro : gmap (option string) (gmap string db_info))
    (obj_name : string) : gmap (option string) (gmap string db_info) :=
  let ro := store_info dataset obj_name empty_info ro in
  match db_objects !! obj_name with
  | Some db_object =>
      let ro :=
        if decide (db_type db_object = "BASE TABLE")
        then update_info dataset obj_name (set_type "table") ro
        else if decide (db_type db_object = "VIEW")
        then update_info dataset obj_name (set_type "view") ro
        else ro in
      let '(ro, cluster_cols) :=
        foldl (column_step dataset obj_name) (ro, []) (db_columns db_object) in
      match cluster_cols with
      | [] => ro
      | _ :: _ => update_info dataset obj_name (set_cluster cluster_cols) ro
      end
  | None => ro
  end.

(** The value of the local [name] for a dataset key: the default dataset
    of the connection when the key is [None] or empty. *)
Definition dataset_name (s : self) (dataset_key : option string) : option string :=
  if decide (dataset_key = None ∨ dataset_key = Some "") then dataset s else dataset_key.

(** What the catalog says of an object, in the words of section 4.3: its
    kind, and the names of its columns that have a cluster ordinal, in the
    order of the [columns] array. *)
Definition object_type_of (o : db_object) : option string :=
  if decide (db_type o = "BASE TABLE") then Some "table"
  else if decide (db_type o = "VIEW") then Some "view"
  else None.

Definition cluster_columns_of (o : db_object) : list string :=
  column_name <$> filter (λ c, is_Some (clustering_ordinal_position c)) (db_columns o).

(** The columns that have a cluster ordinal, each with its ordinal, in the
    order of the [columns] array. *)
Definition cluster_entries_of (o : db_object) : list (string * Z) :=
  omap (λ c, pair (column_name c) <$> clustering_ordinal_position c) (db_columns o).

(** What [ORDER BY clustering_ordinal_position] inside [array_agg] gives:
    of two columns that both have an ordinal, the earlier one in the array
    has the smaller ordinal, wherever the [NULL]s are placed. *)
Definition ordered_by_ordinal (columns : list column_row) : Prop :=
  StronglySorted
    (λ c d, ∀ a b, clustering_ordinal_position c = Some a →
                   clustering_ordinal_position d = Some b → (a ≤ b)%Z)
    columns.

(** The catalog queries of a request, one per dataset, in iteration
    order. *)
Definition queries_of (s : self)
    (to_introspect : list (string * list (option string * list string))) : list string :=
  to_introspect ≫= λ pd,
    (λ d, catalog_query (format_opt (dataset_name s d.1)) d.2) <$> pd.2.

(** The dictionary [info] recorded for [obj_name] agrees with the catalog
    rows [db_objects]: the dictionary of an unknown object when there is no
    row, else the kind and the cluster columns of the row. *)
Definition recorded (db_objects : gmap string db_object) (obj_name : string)
    (info : db_info) : Prop :=
  match db_objects !! obj_name with
  | None => info = empty_info
  | Some o =>
      info_type info = object_type_of o
      ∧ default [] (info_cluster info) = cluster_columns_of o
  end.

(** The partition column the loop over the columns leaves behind: the
    name of the last column of the array whose flag [is_partition] is
    [True]. *)
Definition partition_column_of (o : db_object) : option string :=
  column_name <$> last (filter (λ c, is_partition c = Some true) (db_columns o)).

(** The dictionary one pass of the loop over the requested objects leaves
    for [obj_name], as a function of the catalog rows. *)
Definition info_of (db_objects : gmap string db_object) (obj_name : string) : db_info :=
  match db_objects !! obj_name with
  | None => empty_info
  | Some o =>
      {| info_type := object_type_of o;
         info_partition := partition_column_of o;
         info_cluster := match cluster_columns_of o with
                         | [] => None
                         | n :: names => Some (n :: names)
                         end |}
  end.

(** [self._requested_objects[dataset][obj_name]], when both keys are
    there. *)
Definition lookup_info (ro : gmap (option string) (gmap string db_info))
    (dataset_key : option string) (obj_name : string) : option db_info :=
  ro !! dataset_key ≫= (λ objs, objs !! obj_name).

(** A request names the object [obj_name] under the dataset key
    [dataset_key]. *)
Definition requests (to_introspect : list (string * list (option string * list string)))
    (dataset_key : option string) (obj_name : string) : Prop :=
  ∃ project datasets objects,
    (project, datasets) ∈ to_introspect
    ∧ (dataset_key, objects) ∈ datasets
    ∧ obj_name ∈ objects.

Section Methods.

(** The rendering of the template [create_table.sql], which is not part
    of this module. *)
Variable render : render_args → string.

(** [self.read_data(query)]: the rows the database returns, or the
    exception it raises. *)
Variable read_data : string → result (list catalog_row).

Definition run_query (query : string) : M (list catalog_row) :=
  λ s, (read_data query, log_query s query).

(** The body of [for dataset, objects in datasets.items()]. *)
Definition introspect_dataset (ds : option string * list string) : M unit :=
  let '(dataset_key, objects) := ds in
  λ s,
    let name := dataset_name s dataset_key in
    let query := catalog_query (format_opt name) objects in
    bind (run_query query) (λ rows s,
      let db_objects := db_objects_of rows in
      let ro := _requested_objects s in
      let ro := match ro !! dataset_key with
                | Some _ => ro
                | None => <[dataset_key := ∅]> ro
                end in
      let ro := foldl (introspect_object db_objects dataset_key) ro objects in
      (Ok (), set_requested_objects s ro)) s.

(** [_introspect]; [to_introspect] is a dictionary of dictionaries,
    iterated in insertion order. *)
Definition _introspect
    (to_introspect : list (string * list (option string * list string))) : M unit :=
  for_each to_introspect (λ '(project, datasets),
    if decide (project ≠ "")
    then raise ValueError_three_levels
    else for_each datasets introspect_dataset).

(** *** [create_table] and [move_table] *)

(** The locals [db_info], [table_exists], [view_exists],
    [partition_column] and [cluster_column] of [create_table]. *)
Definition existing_state (s : self) (schema : option string) (table : string)
    : db_info * bool * bool * string * gset string :=
  match _requested_objects s !! schema ≫= (λ objs, objs !! table) with
  | Some db_info =>
      let object_type := info_type db_info in
      (db_info,
       bool_decide (object_type = Some "table"),
       bool_decide (object_type = Some "view"),
       default "" (info_partition db_info),
       list_to_set (default [] (info_cluster db_info)))
  | None => (empty_info, true, true, "", ∅)
  end.

(** The locals [drop] and [query] of [create_table], before they are
    concatenated. *)
Definition create_table_plan (s : self) (table : string) (schema : option string)
    (select : option string) (replace : bool) (ddl : ddl_kwargs) : string * string :=
  let full_name := fully_qualify table schema in
  let '(db_info, table_exists, view_exists, partition_column, cluster_column) :=
    existing_state s schema table in
  let des_partitioned := or_empty_str (ddl_partition ddl) in
  let des_clustered := set_or_empty (ddl_cluster ddl) in
  let drop :=
    if decide (des_clustered = cluster_column ∧ des_partitioned = partition_column)
    then ""
    else if decide (info_type db_info = Some "table")
    then "DROP TABLE IF EXISTS " +:+ full_name +:+ ";" +:+ LF
    else "DROP VIEW IF EXISTS " +:+ full_name +:+ ";" +:+ LF in
  let query :=
    render {|
      arg_table_name := table;
      arg_full_name := full_name;
      arg_view_exists := view_exists;
      arg_table_exists := table_exists;
      arg_select := select;
      arg_replace := true;
      arg_can_replace_table := feature "CAN REPLACE TABLE";
      arg_needs_cascade := feature "NEEDS CASCADE";
      arg_cannot_specify_ddl_select := feature "CANNOT SPECIFY DDL IN SELECT";
      arg_all_columns_have_type :=
        length (filter (λ c, is_Some (DDL.type c)) (default [] (ddl_columns ddl)));
      arg_ddl := ddl
    |} in
  (drop, query).

Definition create_table (s : self) (table : string) (schema : option string)
    (select : option string) (replace : bool) (ddl : ddl_kwargs) : string :=
  let '(drop, query) := create_table_plan s table schema select replace ddl in
  drop +:+ query.

Definition move_table (s : self) (src_table dst_table : string)
    (src_schema dst_schema : option string) (ddl : ddl_kwargs) : string :=
  let full_src_table :=
    match src_schema with
    | Some src_schema => (src_schema +:+ ".") +:+ src_table
    | None => "" +:+ src_table
    end in
  let select := "SELECT * FROM " +:+ full_src_table in
  let create_or_replace := create_table s dst_table dst_schema (Some select) true ddl in
  String.concat (LF +:+ LF) [create_or_replace; "DROP TABLE " +:+ full_src_table].

End Methods.

(** *** [create_engine] *)

(** The call [sqlalchemy.create_engine(url, **settings)] the method ends
    with. *)
Record engine_args := {
  engine_url : string;
  engine_kwargs : gmap string string
}.

Definition set_dataset (s : self) (d : string) : self :=
  {| dataset := Some d; _requested_objects := _requested_objects s;
     issued_queries := issued_queries s |}.

(** [create_engine]: [None] is the [KeyError] of [settings.pop("project")];
    otherwise the new value of [self.project], the instance, and the
    arguments handed to sqlalchemy.  The method works on a deep copy, so
    the caller's [settings] stay as they are. *)
Definition create_engine (s : self) (settings : gmap string string)
    : option (string * self * engine_args) :=
  match settings !! "project" with
  | None => None
  | Some project =>
      let settings := delete "project" settings in
      let url := "bigquery://" +:+ project in
      match settings !! "dataset" with
      | Some d =>
          let settings := delete "dataset" settings in
          Some (project, set_dataset s d,
                {| engine_url := url +:+ ("/" +:+ d); engine_kwargs := settings |})
      | None =>
          Some (project, s, {| engine_url := url; engine_kwargs := settings |})
      end
  end.

(** *** [DDL.get_ddl] *)

Definition set_ddl_cluster (c : list string) (d : ddl_kwargs) : ddl_kwargs :=
  {| ddl_columns := ddl_columns d; ddl_partition := ddl_partition d;
     ddl_cluster := Some c; ddl_others := ddl_others d |}.

Definition set_ddl_partition (p : string) (d : ddl_kwargs) : ddl_kwargs :=
  {| ddl_columns := ddl_columns d; ddl_partition := Some p;
     ddl_cluster := ddl_cluster d; ddl_others := ddl_others d |}.

(** [DDL.get_ddl]; [base_ddl] is the dictionary [self.base_ddl()] returns,
    a method of the parent class.  The local list [properties] the method
    fills is never read and is left out. *)
Definition get_ddl (base_ddl : ddl_kwargs) (properties : option DDL.Properties)
    : ddl_kwargs :=
  let result := base_ddl in
  match properties with
  | Some p =>
      let result := match DDL.cluster p with
                    | Some c => set_ddl_cluster c result
                    | None => result
                    end in
      let result := match DDL.partition p with
                    | Some q => set_ddl_partition q result
                    | None => result
                    end in
      result
  | None => result
  end.

(** The arguments [create_table] hands to the template when the instance
    holds the dictionary [info] for the table. *)
Definition render_args_for (info : db_info) (table : string) (schema : option string)
    (select : option string) (ddl : ddl_kwargs) : render_args :=
  {| arg_table_name := table;
     arg_full_name := fully_qualify table schema;
     arg_view_exists := bool_decide (info_type info = Some "view");
     arg_table_exists := bool_decide (info_type info = Some "table");
     arg_select := select;
     arg_replace := true;
     arg_can_replace_table := true;
     arg_needs_cascade := false;
     arg_cannot_specify_ddl_select := false;
     arg_all_columns_have_type :=
       length (filter (λ c, is_Some (DDL.type c)) (default [] (ddl_columns ddl)));
     arg_ddl := ddl |}.

End Bigquery.

(** ** Sample inputs *)

Module Samples.
Import Bigquery.

(** A sample renderer, to run [create_table] on concrete inputs.  The
    template [create_table.sql] is not part of the module and nothing is
    read off the text written here: it writes
    [CREATE [OR REPLACE] TABLE full_name [PARTITION BY p] [AS select]],
    and every theorem about [create_table] is stated for an arbitrary
    renderer. *)
Definition sample_render (a : render_args) : string :=
  "CREATE "
  +:+ (if arg_can_replace_table a && arg_replace a then "OR REPLACE " else "")
  +:+ "TABLE " +:+ arg_full_name a
  +:+ match ddl_partition (arg_ddl a) with
      | Some p => " PARTITION BY " +:+ p
      | None => ""
      end
  +:+ match arg_select a with
      | Some q => " AS " +:+ q
      | None => ""
      end.


Definition col (n : string) : DDL.Columns := {| DDL.name := n; DDL.type := None |}.

(** The desired table of the end-to-end example of section 8: columns
    [id] and [ts], partitioned by [ts], not clustered. *)
Definition ddl_t : ddl_kwargs :=
  {| ddl_columns := Some [col "id"; col "ts"]; ddl_partition := Some "ts";
     ddl_cluster := None; ddl_others := [] |}.

(** An instance that has introspected nothing yet. *)
Definition fresh : self :=
  {| dataset := Some "analytics"; _requested_objects := ∅; issued_queries := [] |}.

(** The dictionary recorded for a table partitioned by [ts] and clustered
    by [b] then [a]. *)
Definition info_clustered : db_info :=
  {| info_type := Some "table"; info_partition := Some "ts";
     info_cluster := Some ["b"; "a"] |}.

(** An instance that has recorded such a table [t] in the dataset [sales]. *)
Definition with_clustered_t : self :=
  {| dataset := Some "analytics";
     _requested_objects := {[ Some "sales" := {[ "t" := info_clustered ]} ]};
     issued_queries := [] |}.

(** A desired table with the same layout, the cluster columns in another
    order. *)
Definition ddl_clustered : ddl_kwargs :=
  {| ddl_columns := Some [col "a"; col "b"; col "ts"]; ddl_partition := Some "ts";
     ddl_cluster := Some ["a"; "b"]; ddl_others := [] |}.

(** The dictionary recorded for an existing table with no layout. *)
Definition info_plain : db_info :=
  {| info_type := Some "table"; info_partition := None; info_cluster := None |}.

(** An instance that has recorded such a table [t] in the default dataset. *)
Definition with_table_t : self :=
  {| dataset := Some "analytics";
     _requested_objects := {[ None := {[ "t" := info_plain ]} ]};
     issued_queries := [] |}.

(** A catalog that holds the table [t], partitioned by [ts] and clustered
    by [b] then [a], and answers every query with it. *)
Definition catalog_t : string → result (list catalog_row) :=
  λ _, Ok [ {| row_name := "t"; row_type := "BASE TABLE";
               row_columns :=
                 [ {| column_name := "ts"; is_partition := Some true;
                      clustering_ordinal_position := None |};
                   {| column_name := "b"; is_partition := Some false;
                      clustering_ordinal_position := Some 1%Z |};
                   {| column_name := "a"; is_partition := Some false;
                      clustering_ordinal_position := Some 2%Z |} ] |} ].

(** A request for the objects [t] and [u] of the dataset [sales]. *)
Definition request_sales : list (string * list (option string * list string)) :=
  [("", [(Some "sales", ["t"; "u"])])].

(** A request that names [t] with two levels and then [obj] with three. *)
Definition request_mixed : list (string * list (option string * list string)) :=
  [("", [(Some "sales", ["t"])]); ("catalog", [(Some "namespace", ["obj"])])].

(** An instance created without a default dataset. *)
Definition unconfigured : self :=
  {| dataset := None; _requested_objects := ∅; issued_queries := [] |}.

(** Connection settings that name a project and a location, no dataset. *)
Definition settings_acme : gmap string string :=
  {[ "project" := "acme"; "location" := "EU" ]}.

(** The clustered table again, with another partition column declared by
    the parent class. *)
Definition ddl_clustered_by_day : ddl_kwargs :=
  {| ddl_columns := Some [col "a"; col "b"; col "ts"]; ddl_partition := Some "day";
     ddl_cluster := Some ["a"; "b"]; ddl_others := [] |}.

(** The clustered table with its cluster columns reversed and one of them
    written twice. *)
Definition ddl_reordered : ddl_kwargs :=
  {| ddl_columns := Some [col "a"; col "b"; col "ts"]; ddl_partition := Some "ts";
     ddl_cluster := Some ["b"; "a"; "b"]; ddl_others := [] |}.

(** Properties that set the partition and leave the cluster alone. *)
Definition properties_ts : option DDL.Properties :=
  Some {| DDL.partition := Some "ts"; DDL.cluster := None |}.

(** An instance that has recorded the plain table [t] under the dataset
    key [""]. *)
Definition with_empty_schema : self :=
  {| dataset := Some "analytics";
     _requested_objects := {[ Some "" := {[ "t" := info_plain ]} ]};
     issued_queries := [] |}.

(** An instance that has recorded [u] of the dataset [sales] as an object
    of unknown kind. *)
Definition with_unknown_u : self :=
  {| dataset := Some "analytics";
     _requested_objects := {[ Some "sales" := {[ "u" := empty_info ]} ]};
     issued_queries := [] |}.



(** A catalog that is down: every query raises. *)
Definition catalog_down : string → result (list catalog_row) :=
  λ _, Raise (DatabaseError "unavailable").

(** A catalog that answers for the dataset [sales] only. *)
Definition catalog_sales_only : string → result (list catalog_row) :=
  λ query, if decide (query = catalog_query "sales" ["t"])
           then catalog_t query
           else Raise (DatabaseError "unavailable").

End Samples.

(** * Properties *)

(** ** Strings *)

Lemma string_app_assoc (a b c : string) : (a +:+ b) +:+ c = a +:+ b +:+ c.
Proof.
  induction a as [|x a IH]; [done|].
  change (String x ((a +:+ b) +:+ c) = String x (a +:+ b +:+ c)).
  by rewrite IH.
Qed.

Lemma string_app_length (a b : string) :
  String.length (a +:+ b) = String.length a + String.length b.
Proof.
  induction a as [|x a IH]; [done|].
  change (S (String.length (a +:+ b)) = S (String.length a + String.length b)).
  by rewrite IH.
Qed.

Lemma string_app_empty_l (a : string) : "" +:+ a = a.
Proof. done. Qed.

(** No string is itself with something non-empty put in front of it. *)
Lemma string_app_neq_self (a b : string) : a ≠ "" → b ≠ a +:+ b.
Proof.
  intros Ha Hb. apply (f_equal String.length) in Hb.
  rewrite string_app_length in Hb.
  destruct a as [|x a]; [done|]. simpl in Hb. lia.
Qed.

Lemma or_empty_str_default (x : option string) : or_empty_str x = default "" x.
Proof.
  destruct x as [s|]; [|done]. unfold or_empty_str.
  by case_decide; subst.
Qed.

Lemma set_or_empty_default (x : option (list string)) :
  set_or_empty x = list_to_set (default [] x).
Proof. by destruct x as [[|c l]|]. Qed.

(** ** [fully_qualify] *)

(** C5, as the code has it: with a namespace, also the empty string, the
    result is the namespace, a dot and the object name, so an empty
    namespace gives a name that starts with a dot; only without a namespace
    is the result the object name alone.  Nothing is escaped or quoted. *)
Theorem fully_qualify_spec (name : string) (schema : option string) :
  fully_qualify name schema =
    match schema with
    | Some ns => ns +:+ "." +:+ name
    | None => name
    end
  ∧ fully_qualify name (Some "") = "." +:+ name
  ∧ String.length (fully_qualify name schema) =
      match schema with
      | Some ns => String.length ns + 1 + String.length name
      | None => String.length name
      end.
Proof.
  split_and!.
  - destruct schema as [ns|]; unfold fully_qualify.
    + apply string_app_assoc.
    + apply string_app_empty_l.
  - done.
  - destruct schema as [ns|]; unfold fully_qualify.
    + rewrite !string_app_length. done.
    + by rewrite string_app_empty_l.
Qed.

(** C5 as stated fails: for the empty namespace the result is not the
    object name alone. *)
Lemma fully_qualify_empty_schema_counterexample :
  fully_qualify "t" (Some "") = ".t" ∧ fully_qualify "t" (Some "") ≠ "t".
Proof. split; [reflexivity | discriminate]. Qed.

(** ** [Bigquery.feature] *)

(** C6, as the code has it: the query answers [True] for the three listed
    names and [False] for every other name; it never fails. *)
Theorem feature_membership (f : string) :
  (Bigquery.feature f = true ↔
     f = "CAN REPLACE TABLE" ∨ f = "CAN REPLACE VIEW" ∨ f = "CANNOT CHANGE SCHEMA")
  ∧ (Bigquery.feature f = false ↔
     f ≠ "CAN REPLACE TABLE" ∧ f ≠ "CAN REPLACE VIEW" ∧ f ≠ "CANNOT CHANGE SCHEMA").
Proof.
  unfold Bigquery.feature. split.
  - rewrite bool_decide_eq_true, !elem_of_cons, elem_of_nil. tauto.
  - rewrite bool_decide_eq_false, !elem_of_cons, elem_of_nil. tauto.
Qed.

(** C6 as stated fails: the two names [create_table] asks for that are not
    in the list are answered with a plain [False]. *)
Lemma feature_unknown_counterexample :
  Bigquery.feature "NEEDS CASCADE" = false
  ∧ Bigquery.feature "CANNOT SPECIFY DDL IN SELECT" = false.
Proof. split; reflexivity. Qed.

(** The name [fully_qualify] writes, spelled out. *)
Lemma fully_qualify_unfold (name : string) (schema : option string) :
  fully_qualify name schema =
    match schema with
    | Some ns => ns +:+ "." +:+ name
    | None => name
    end.
Proof.
  unfold fully_qualify. destruct schema as [ns|].
  - apply string_app_assoc.
  - apply string_app_empty_l.
Qed.

(** ** [Bigquery.create_table] *)

Section CreateTable.
Import Bigquery.

Variable render : render_args → string.

Lemma existing_state_found s schema table objs info :
  _requested_objects s !! schema = Some objs →
  objs !! table = Some info →
  existing_state s schema table =
    (info, bool_decide (info_type info = Some "table"),
     bool_decide (info_type info = Some "view"),
     default "" (info_partition info),
     list_to_set (default [] (info_cluster info))).
Proof. intros Hs Ht. unfold existing_state. by rewrite Hs; simpl; rewrite Ht. Qed.

Lemma create_table_plan_query s table schema select replace ddl objs info :
  _requested_objects s !! schema = Some objs →
  objs !! table = Some info →
  (create_table_plan render s table schema select replace ddl).2 =
    render (render_args_for info table schema select ddl).
Proof.
  intros Hs Ht. unfold create_table_plan.
  by rewrite (existing_state_found _ _ _ _ _ Hs Ht).
Qed.

Lemma create_table_plan_drop s table schema select replace ddl objs info :
  _requested_objects s !! schema = Some objs →
  objs !! table = Some info →
  (create_table_plan render s table schema select replace ddl).1 =
    if decide ((list_to_set (default [] (ddl_cluster ddl)) : gset string) =
                 list_to_set (default [] (info_cluster info))
               ∧ default "" (ddl_partition ddl) = default "" (info_partition info))
    then ""
    else if decide (info_type info = Some "table")
    then "DROP TABLE IF EXISTS " +:+ fully_qualify table schema +:+ ";" +:+ LF
    else "DROP VIEW IF EXISTS " +:+ fully_qualify table schema +:+ ";" +:+ LF.
Proof.
  intros Hs Ht. unfold create_table_plan.
  rewrite (existing_state_found _ _ _ _ _ Hs Ht). simpl.
  rewrite or_empty_str_default, set_or_empty_default.
  by repeat case_decide.
Qed.

Lemma create_table_concat s table schema select replace ddl :
  create_table render s table schema select replace ddl =
    (create_table_plan render s table schema select replace ddl).1
    +:+ (create_table_plan render s table schema select replace ddl).2.
Proof.
  unfold create_table.
  by destruct (create_table_plan render s table schema select replace ddl).
Qed.


(** C1: when the desired cluster columns, as a set, and the desired
    partition, the empty string when absent, equal the recorded ones, the
    drop statement is empty and the script is the create statement alone. *)
Theorem create_table_no_drop s table schema select replace ddl objs info :
  _requested_objects s !! schema = Some objs →
  objs !! table = Some info →
  (list_to_set (default [] (ddl_cluster ddl)) : gset string) =
    list_to_set (default [] (info_cluster info)) →
  default "" (ddl_partition ddl) = default "" (info_partition info) →
  (create_table_plan render s table schema select replace ddl).1 = ""
  ∧ create_table render s table schema select replace ddl =
      render (render_args_for info table schema select ddl).
Proof.
  intros Hs Ht Hc Hp.
  assert ((create_table_plan render s table schema select replace ddl).1 = "") as Hdrop.
  { rewrite (create_table_plan_drop _ _ _ _ _ _ _ _ Hs Ht).
    by rewrite decide_True. }
  split; [done|].
  rewrite create_table_concat, Hdrop, string_app_empty_l.
  by apply (create_table_plan_query _ _ _ _ _ _ _ _ Hs Ht).
Qed.

(** C2, as the code has it: when the layouts differ, a recorded table is
    dropped as a table, and a recorded view or an object of unknown kind is
    dropped as a view.  The name in the statement is the schema, a dot and
    the table whenever a schema is given, the empty schema included, and
    the table alone only without a schema.  The script, the drop followed
    by the rendered text, is returned in every case. *)
Theorem create_table_drop_kind s table schema select replace ddl objs info :
  _requested_objects s !! schema = Some objs →
  objs !! table = Some info →
  ¬ ((list_to_set (default [] (ddl_cluster ddl)) : gset string) =
       list_to_set (default [] (info_cluster info))
     ∧ default "" (ddl_partition ddl) = default "" (info_partition info)) →
  (info_type info = Some "table" →
     (create_table_plan render s table schema select replace ddl).1 =
       "DROP TABLE IF EXISTS "
       +:+ (match schema with
            | Some ns => ns +:+ "." +:+ table
            | None => table
            end)
       +:+ ";" +:+ LF)
  ∧ (info_type info = Some "view" ∨ info_type info = None →
     (create_table_plan render s table schema select replace ddl).1 =
       "DROP VIEW IF EXISTS "
       +:+ (match schema with
            | Some ns => ns +:+ "." +:+ table
            | None => table
            end)
       +:+ ";" +:+ LF)
  ∧ create_table render s table schema select replace ddl =
      (create_table_plan render s table schema select replace ddl).1
      +:+ render (render_args_for info table schema select ddl).
Proof.
  intros Hs Ht Hdiff.
  rewrite create_table_concat, (create_table_plan_query _ _ _ _ _ _ _ _ Hs Ht).
  rewrite (create_table_plan_drop _ _ _ _ _ _ _ _ Hs Ht).
  rewrite (decide_False _ _ Hdiff), fully_qualify_unfold.
  split_and!; [| |done].
  - intros Hty. by rewrite decide_True.
  - intros Hty. rewrite decide_False; [done|]. by destruct Hty as [-> | ->].
Qed.

(** An object the instance never recorded is treated like one of unknown
    kind with no layout. *)
Lemma create_table_not_requested s table schema select replace ddl :
  _requested_objects s !! schema ≫= (λ objs, objs !! table) = None →
  (create_table_plan render s table schema select replace ddl).1 =
    if decide (set_or_empty (ddl_cluster ddl) = ∅ ∧ or_empty_str (ddl_partition ddl) = "")
    then ""
    else "DROP VIEW IF EXISTS " +:+ fully_qualify table schema +:+ ";" +:+ LF.
Proof.
  intros Hnone. unfold create_table_plan, existing_state. rewrite Hnone. simpl.
  by repeat case_decide.
Qed.


(** C10: the argument [replace] does not reach the script; the template is
    always rendered with [replace] set. *)
Theorem create_table_ignores_replace s table schema select ddl :
  create_table render s table schema select false ddl =
    create_table render s table schema select true ddl
  ∧ ∀ replace, ∃ args,
      (create_table_plan render s table schema select replace ddl).2 = render args
      ∧ arg_replace args = true.
Proof.
  split.
  - by rewrite !create_table_concat.
  - intros replace. unfold create_table_plan.
    destruct (existing_state s schema table) as [[[[info te] ve] pc] cc].
    eexists. split; [reflexivity|]. done.
Qed.

(** [move_table] joins the script of [create_table] and the drop of the
    source with a blank line. *)
Lemma move_table_script s src_table dst_table src_schema dst_schema ddl :
  move_table render s src_table dst_table src_schema dst_schema ddl =
    create_table render s dst_table dst_schema
      (Some ("SELECT * FROM " +:+ fully_qualify src_table src_schema)) true ddl
    +:+ LF +:+ LF +:+ "DROP TABLE " +:+ fully_qualify src_table src_schema.
Proof.
  unfold move_table. simpl. by rewrite string_app_assoc.
Qed.

End CreateTable.

Section CreateTableExamples.
Import Bigquery Samples.

Lemma create_table_no_drop_witness :
  (create_table_plan sample_render with_clustered_t "t" (Some "sales") None false
     ddl_clustered).1 = ""
  ∧ create_table sample_render with_clustered_t "t" (Some "sales") None false ddl_clustered =
      sample_render (render_args_for info_clustered "t" (Some "sales") None ddl_clustered).
Proof.
  apply (create_table_no_drop sample_render with_clustered_t "t" (Some "sales") None false
           ddl_clustered {[ "t" := info_clustered ]} info_clustered).
  - reflexivity.
  - reflexivity.
  - vm_compute. reflexivity.
  - reflexivity.
Defined.

Lemma create_table_drop_kind_witness :
  (create_table_plan sample_render with_table_t "t" None None false ddl_t).1 =
    "DROP TABLE IF EXISTS t;" +:+ LF
  ∧ (create_table_plan sample_render with_unknown_u "u" (Some "sales") None false ddl_t).1 =
    "DROP VIEW IF EXISTS sales.u;" +:+ LF.
Proof.
  split.
  - destruct (create_table_drop_kind sample_render with_table_t "t" None None false ddl_t
                {[ "t" := info_plain ]} info_plain) as (Htable & _ & _).
    + reflexivity.
    + reflexivity.
    + intros [_ Hp]. discriminate Hp.
    + exact (Htable eq_refl).
  - destruct (create_table_drop_kind sample_render with_unknown_u "u" (Some "sales") None
                false ddl_t {[ "u" := empty_info ]} empty_info) as (_ & Hview & _).
    + reflexivity.
    + reflexivity.
    + intros [_ Hp]. discriminate Hp.
    + exact (Hview (or_intror eq_refl)).
Defined.

(** C2 as stated fails for the name: under the dataset key [""] the drop
    statement names [.t], where the qualified name of section 4.5 is [t];
    the drop statement does not depend on the renderer. *)
Lemma create_table_drop_empty_schema_counterexample :
  (∀ render,
     (create_table_plan render with_empty_schema "t" (Some "") None false ddl_t).1 =
       "DROP TABLE IF EXISTS .t;" +:+ LF)
  ∧ qualify_spec "t" (Some "") = "t"
  ∧ (∀ render,
       String.prefix
         ("DROP TABLE IF EXISTS " +:+ qualify_spec "t" (Some ""))
         (create_table_plan render with_empty_schema "t" (Some "") None false ddl_t).1
       = false).
Proof.
  split_and!.
  - intros render. vm_compute. reflexivity.
  - reflexivity.
  - intros render. vm_compute. reflexivity.
Qed.


End CreateTableExamples.

(** ** The validators of [DDL] *)

Section Validators.

Lemma occurrences_cons (x a : string) (l : list string) :
  occurrences x (a :: l) = (if decide (a = x) then 1 else 0) + occurrences x l.
Proof. unfold occurrences. rewrite filter_cons. by case_decide. Qed.

Lemma occurrences_pos (x : string) (l : list string) : x ∈ l ↔ 0 < occurrences x l.
Proof.
  induction l as [|a l IH].
  - rewrite elem_of_nil. unfold occurrences. simpl. lia.
  - rewrite elem_of_cons, occurrences_cons, IH.
    case_decide; subst; [split; [lia | auto] |].
    split; [intros [?| ?]; [congruence | lia] | intros ?; right; lia].
Qed.

(** A list without repetition is one where nothing occurs twice. *)
Lemma NoDup_occurrences (l : list string) : NoDup l ↔ ∀ x, occurrences x l ≤ 1.
Proof.
  induction l as [|a l IH].
  - split; [intros _ x; unfold occurrences; simpl; lia | intros _; constructor].
  - rewrite NoDup_cons, IH. split.
    + intros [Ha Hl] x. rewrite occurrences_cons. case_decide; subst.
      * rewrite occurrences_pos in Ha. lia.
      * apply Hl.
    + intros H. split.
      * specialize (H a). rewrite occurrences_cons, decide_True in H by done.
        rewrite occurrences_pos. lia.
      * intros x. specialize (H x). rewrite occurrences_cons in H. lia.
Qed.

(** The counting loop behind [Counter], started from any table [m]. *)
Lemma Counter_foldl_lookup (l : list string) (m : gmap string nat) (k : string) :
  foldl (λ m k, <[k := S (default 0 (m !! k))]> m) m l !! k =
    match occurrences k l with
    | 0 => m !! k
    | S n => Some (S n + default 0 (m !! k))
    end.
Proof.
  revert m. induction l as [|a l IH]; intros m; [done|].
  simpl. rewrite IH, occurrences_cons.
  destruct (decide (a = k)) as [->|Hne].
  - rewrite lookup_insert_eq. simpl.
    destruct (occurrences k l); f_equal; lia.
  - by rewrite lookup_insert_ne.
Qed.

Lemma Counter_lookup (l : list string) (k : string) :
  Counter l !! k =
    match occurrences k l with
    | 0 => None
    | S n => Some (S n)
    end.
Proof.
  unfold Counter. rewrite Counter_foldl_lookup, lookup_empty. simpl.
  destruct (occurrences k l); f_equal; lia.
Qed.

(** The set [dupes] holds the names that occur more than once. *)
Lemma dupes_spec (l : list string) (x : string) :
  x ∈ dom (filter (λ kv : string * nat, 1 < kv.2) (Counter l)) ↔ 1 < occurrences x l.
Proof.
  rewrite elem_of_dom. unfold is_Some.
  setoid_rewrite map_lookup_filter_Some. rewrite Counter_lookup. simpl.
  destruct (occurrences x l) as [|n].
  - split; [intros (? & ? & _); discriminate | lia].
  - split; [intros (? & [= <-] & ?); lia | intros ?; eexists; split; [done | lia]].
Qed.

Lemma columns_unique_raises (v : list DDL.Columns) :
  ¬ NoDup (DDL.name <$> v) →
  DDL.columns_unique v =
    Raise (ValueError_duplicate_columns
             (dom (filter (λ kv : string * nat, 1 < kv.2) (Counter (DDL.name <$> v))))).
Proof.
  intros Hdup. unfold DDL.columns_unique. simpl.
  case_decide as Hsize; [done|]. exfalso. apply Hdup.
  apply NoDup_occurrences. intros x.
  assert (x ∉ dom (filter (λ kv : string * nat, 1 < kv.2) (Counter (DDL.name <$> v)))) as Hx.
  { assert (size (dom (filter (λ kv : string * nat, 1 < kv.2)
                          (Counter (DDL.name <$> v)))) = 0) as Hz by lia.
    apply size_empty_inv in Hz. intros Hin. by apply Hz in Hin. }
  rewrite dupes_spec in Hx. lia.
Qed.

(** Column lists without a repeated name pass unchanged; names are compared
    as they are written, so [a] and [A] differ. *)
Lemma columns_unique_accepts (v : list DDL.Columns) :
  NoDup (DDL.name <$> v) → DDL.columns_unique v = Ok v.
Proof.
  intros Hnd. unfold DDL.columns_unique. simpl.
  case_decide as Hsize; [|done]. exfalso.
  apply size_pos_elem_of in Hsize as [x Hx].
  rewrite dupes_spec in Hx.
  rewrite NoDup_occurrences in Hnd. specialize (Hnd x). lia.
Qed.

(** C7: a column list with a repeated name is refused with one error that
    carries the set of all names occurring more than once; for
    [a, a, b, b, c] that set is [{a, b}]. *)
Theorem columns_unique_reports_all_duplicates :
  (∀ v : list DDL.Columns,
     ¬ NoDup (DDL.name <$> v) →
     ∃ dupes : gset string,
       DDL.columns_unique v = Raise (ValueError_duplicate_columns dupes)
       ∧ ∀ x, x ∈ dupes ↔ 1 < occurrences x (DDL.name <$> v))
  ∧ DDL.columns_unique (DDL.transform_str_cols
      [DDL.RawStr "a"; DDL.RawStr "a"; DDL.RawStr "b"; DDL.RawStr "b"; DDL.RawStr "c"]) =
    Raise (ValueError_duplicate_columns {[ "a"; "b" ]}).
Proof.
  split.
  - intros v Hdup. eexists. split; [by apply columns_unique_raises|].
    intros x. apply dupes_spec.
  - vm_compute. reflexivity.
Qed.

End Validators.

Section ValidatorExamples.
Import Samples.

Lemma columns_unique_duplicates_witness :
  ∃ dupes : gset string,
    DDL.columns_unique [col "a"; col "a"; col "b"; col "b"; col "c"] =
      Raise (ValueError_duplicate_columns dupes)
    ∧ ∀ x, x ∈ dupes ↔
        1 < occurrences x (DDL.name <$> [col "a"; col "a"; col "b"; col "b"; col "c"]).
Proof.
  apply (proj1 columns_unique_reports_all_duplicates).
  intros Hnd. apply NoDup_cons in Hnd as [Ha _]. apply Ha. left.
Defined.

(** Names that differ only in case are different columns. *)
Example columns_unique_case_sensitive :
  DDL.columns_unique [col "a"; col "A"] = Ok [col "a"; col "A"].
Proof.
  apply columns_unique_accepts. simpl.
  repeat constructor; rewrite ?elem_of_cons, ?elem_of_nil; intros H;
    repeat destruct H as [H|H]; done.
Qed.

(** With cluster columns and at least one declared column,
    [validate_properties] builds [set(v)] from the [Properties] instance
    itself: its item [("cluster", [...])] holds a list and cannot be
    hashed, so the validator stops with a [TypeError] before any column is
    compared. *)
Lemma validate_properties_unhashable (p : DDL.Properties) (c : list string)
    (columns : list DDL.Columns) :
  DDL.cluster p = Some c →
  columns ≠ [] →
  DDL.validate_properties (Some p) (Some columns) = Raise TypeError_unhashable_list.
Proof.
  intros Hc Hcols. unfold DDL.validate_properties. rewrite Hc.
  rewrite decide_True by (destruct columns; [done | simpl; lia]).
  unfold DDL.Properties_iter. rewrite Hc. simpl.
  by destruct (DDL.partition p).
Qed.

(** C4 on the code: for columns [x, y] and cluster [x, z] the missing set
    of section 4.1 is [{z}], but the validator raises the [TypeError] of
    [set(v)] and reports no missing set; it raises the same for the cluster
    [x], where nothing is missing. *)
Theorem validate_properties_reports_no_missing_set :
  DDL.missing_cluster_columns ["x"; "z"] [col "x"; col "y"] = {[ "z" ]}
  ∧ DDL.validate_properties
      (Some {| DDL.partition := None; DDL.cluster := Some ["x"; "z"] |})
      (Some [col "x"; col "y"]) = Raise TypeError_unhashable_list
  ∧ DDL.missing_cluster_columns ["x"] [col "x"; col "y"] = ∅
  ∧ DDL.validate_properties
      (Some {| DDL.partition := None; DDL.cluster := Some ["x"] |})
      (Some [col "x"; col "y"]) = Raise TypeError_unhashable_list.
Proof.
  split_and!.
  - vm_compute. reflexivity.
  - by apply (validate_properties_unhashable _ ["x"; "z"]).
  - vm_compute. reflexivity.
  - by apply (validate_properties_unhashable _ ["x"]).
Qed.

End ValidatorExamples.

(** ** [Bigquery._introspect] *)

Section IntrospectObject.
Import Bigquery.

Implicit Types ro : gmap (option string) (gmap string db_info).
Implicit Types objs : gmap string db_info.

(** The two assignment forms, once the dataset key is there. *)
Lemma store_info_insert ro dataset obj_name info objs :
  ro !! dataset = Some objs →
  store_info dataset obj_name info ro = <[dataset := <[obj_name := info]> objs]> ro.
Proof.
  intros Hds. unfold store_info. apply map_eq. intros k.
  destruct (decide (dataset = k)) as [<-|Hne].
  - by rewrite lookup_alter_eq, lookup_insert_eq, Hds.
  - by rewrite lookup_alter_ne, lookup_insert_ne.
Qed.

Lemma update_info_insert ro dataset obj_name f objs info :
  ro !! dataset = Some objs →
  objs !! obj_name = Some info →
  update_info dataset obj_name f ro = <[dataset := <[obj_name := f info]> objs]> ro.
Proof.
  intros Hds Hobj. unfold update_info. apply map_eq. intros k.
  destruct (decide (dataset = k)) as [<-|Hne].
  - rewrite lookup_alter_eq, lookup_insert_eq, Hds. simpl. f_equal.
    apply map_eq. intros j.
    destruct (decide (obj_name = j)) as [<-|Hnj].
    + by rewrite lookup_alter_eq, lookup_insert_eq, Hobj.
    + by rewrite lookup_alter_ne, lookup_insert_ne.
  - by rewrite lookup_alter_ne, lookup_insert_ne.
Qed.

(** Writing an object's dictionary twice keeps the second one. *)
Lemma insert_info_twice ro dataset obj_name objs (i1 i2 : db_info) :
  <[dataset := <[obj_name := i2]> (<[obj_name := i1]> objs)]>
    (<[dataset := <[obj_name := i1]> objs]> ro)
  = <[dataset := <[obj_name := i2]> objs]> ro.
Proof. by rewrite !insert_insert_eq. Qed.

Lemma insert_info_id ro dataset obj_name objs (info : db_info) :
  ro !! dataset = Some objs →
  objs !! obj_name = Some info →
  <[dataset := <[obj_name := info]> objs]> ro = ro.
Proof. intros Hds Hobj. rewrite (insert_id objs) by done. by apply insert_id. Qed.

(** The loop over the columns rewrites the object's dictionary, leaves its
    kind and cluster entry alone, and appends to [cluster_cols] the names
    of the columns that have an ordinal, in the order of the array. *)
Lemma column_loop ro dataset obj_name objs info cluster_cols columns :
  ro !! dataset = Some objs →
  objs !! obj_name = Some info →
  ∃ info',
    foldl (column_step dataset obj_name) (ro, cluster_cols) columns =
      (<[dataset := <[obj_name := info']> objs]> ro,
       cluster_cols
       ++ (column_name <$> filter (λ c, is_Some (clustering_ordinal_position c)) columns))
    ∧ info_type info' = info_type info
    ∧ info_cluster info' = info_cluster info.
Proof.
  revert ro objs info cluster_cols.
  induction columns as [|c columns IH]; intros ro objs info cluster_cols Hds Hobj.
  - exists info. simpl. by rewrite app_nil_r, insert_info_id.
  - simpl.
    assert (∃ info1, (column_step dataset obj_name (ro, cluster_cols) c).1 =
                       <[dataset := <[obj_name := info1]> objs]> ro
                     ∧ info_type info1 = info_type info
                     ∧ info_cluster info1 = info_cluster info) as (info1 & Hro & Hty & Hcl).
    { unfold column_step. simpl. case_decide.
      - eexists. split; [by apply update_info_insert|]. done.
      - exists info. by rewrite insert_info_id. }
    destruct (column_step dataset obj_name (ro, cluster_cols) c) as [ro1 cc1] eqn:Hstep.
    simpl in Hro. subst ro1.
    assert (cc1 = cluster_cols
                  ++ (if decide (is_Some (clustering_ordinal_position c))
                      then [column_name c] else [])) as ->.
    { unfold column_step in Hstep. simpl in Hstep. injection Hstep as _ <-.
      destruct (clustering_ordinal_position c); simpl; by rewrite ?app_nil_r. }
    destruct (IH (<[dataset := <[obj_name := info1]> objs]> ro)
                 (<[obj_name := info1]> objs) info1
                 (cluster_cols ++ (if decide (is_Some (clustering_ordinal_position c))
                                   then [column_name c] else [])))
      as (info' & Hfold & Hty' & Hcl').
    { apply lookup_insert_eq. }
    { apply lookup_insert_eq. }
    exists info'. rewrite Hfold, insert_info_twice.
    split_and!; [|congruence..].
    f_equal. rewrite filter_cons. rewrite <- app_assoc.
    by case_decide.
Qed.

(** One pass of the loop over the requested objects: the object gets a
    dictionary that agrees with the catalog rows, and nothing else
    changes. *)
Lemma introspect_object_spec db_objects dataset ro obj_name objs :
  ro !! dataset = Some objs →
  ∃ info,
    introspect_object db_objects dataset ro obj_name =
      <[dataset := <[obj_name := info]> objs]> ro
    ∧ recorded db_objects obj_name info.
Proof.
  intros Hds. unfold introspect_object, recorded.
  rewrite (store_info_insert _ _ _ _ _ Hds).
  destruct (db_objects !! obj_name) as [o|]; [|by exists empty_info].
  set (ro0 := <[dataset := <[obj_name := empty_info]> objs]> ro).
  assert (∃ info1,
            (if decide (db_type o = "BASE TABLE")
             then update_info dataset obj_name (set_type "table") ro0
             else if decide (db_type o = "VIEW")
             then update_info dataset obj_name (set_type "view") ro0
             else ro0) = <[dataset := <[obj_name := info1]> objs]> ro
            ∧ info_type info1 = object_type_of o
            ∧ info_cluster info1 = None) as (info1 & -> & Hty & Hcl).
  { unfold object_type_of, ro0. repeat case_decide.
    - eexists. split.
      + erewrite update_info_insert by apply lookup_insert_eq.
        apply insert_info_twice.
      + done.
    - eexists. split.
      + erewrite update_info_insert by apply lookup_insert_eq.
        apply insert_info_twice.
      + done.
    - by exists empty_info. }
  destruct (column_loop (<[dataset := <[obj_name := info1]> objs]> ro) dataset obj_name
              (<[obj_name := info1]> objs) info1 [] (db_columns o))
    as (info2 & Hfold & Hty2 & Hcl2); [apply lookup_insert_eq..|].
  rewrite Hfold, insert_info_twice. simpl. fold (cluster_columns_of o).
  destruct (cluster_columns_of o) as [|n names] eqn:Hnames.
  - exists info2. split; [done|]. split; [congruence|]. by rewrite Hcl2, Hcl.
  - eexists. split.
    + erewrite update_info_insert by apply lookup_insert_eq.
      apply insert_info_twice.
    + simpl. split; [congruence | done].
Qed.

(** The loop over the requested objects of one dataset. *)
Lemma introspect_objects_spec db_objects dataset objects ro objs :
  ro !! dataset = Some objs →
  ∃ objs',
    foldl (introspect_object db_objects dataset) ro objects = <[dataset := objs']> ro
    ∧ (∀ obj_name, obj_name ∈ objects →
         ∃ info, objs' !! obj_name = Some info ∧ recorded db_objects obj_name info)
    ∧ (∀ obj_name, obj_name ∉ objects → objs' !! obj_name = objs !! obj_name).
Proof.
  revert ro objs. induction objects as [|o objects IH]; intros ro objs Hds.
  - exists objs. rewrite insert_id by done. split_and!; [done| |done].
    intros ? Hin. by apply elem_of_nil in Hin.
  - simpl.
    destruct (introspect_object_spec db_objects dataset ro o objs Hds) as (info & -> & Hrec).
    destruct (IH (<[dataset := <[o := info]> objs]> ro) (<[o := info]> objs))
      as (objs' & -> & Hin & Hout); [apply lookup_insert_eq|].
    exists objs'. rewrite insert_insert_eq. split_and!; [done| |].
    + intros obj_name Hel.
      destruct (decide (obj_name ∈ objects)) as [Hobj|Hobj]; [by apply Hin|].
      apply elem_of_cons in Hel as [->|?]; [|done].
      exists info. by rewrite (Hout _ Hobj), lookup_insert_eq.
    + intros obj_name Hel. apply not_elem_of_cons in Hel as [Hne Hel].
      by rewrite (Hout _ Hel), lookup_insert_ne.
Qed.


(** These columns come in ascending ordinal when the array is ordered as
    the query asks of the database; the method itself relies on that. *)
Lemma cluster_entries_ascending (o : db_object) :
  ordered_by_ordinal (db_columns o) →
  StronglySorted Z.le (cluster_entries_of o).*2.
Proof.
  unfold ordered_by_ordinal, cluster_entries_of.
  induction 1 as [|c columns Hs IH Hall]; [constructor|].
  simpl. destruct (clustering_ordinal_position c) as [a|] eqn:Hc; [|done].
  simpl. constructor; [done|].
  apply Forall_forall. intros b Hb.
  apply list_elem_of_fmap in Hb as ([n b'] & -> & Hb).
  apply list_elem_of_omap in Hb as (d & Hd & Hdb).
  destruct (clustering_ordinal_position d) as [b''|] eqn:Hdo; [|done].
  simpl in Hdb. injection Hdb as _ <-.
  rewrite Forall_forall in Hall. by apply (Hall d Hd).
Qed.

End IntrospectObject.

Section Introspect.
Import Bigquery.

Variable read_data : string → result (list catalog_row).

Implicit Types s : self.

Lemma for_each_cons {X} (x : X) (xs : list X) (body : X → M unit) s :
  for_each (x :: xs) body s =
    match body x s with
    | (Ok _, s1) => for_each xs body s1
    | (Raise e, s1) => (Raise e, s1)
    end.
Proof. reflexivity. Qed.

Lemma for_each_app {X} (xs ys : list X) (body : X → M unit) s :
  for_each (xs ++ ys) body s = bind (for_each xs body) (λ _, for_each ys body) s.
Proof.
  revert s. induction xs as [|x xs IH]; intros s; [reflexivity|].
  simpl. unfold bind. destruct (body x s) as [[[]|e] s1]; [|reflexivity].
  rewrite IH. reflexivity.
Qed.

Lemma dataset_name_ext s1 s2 dataset_key :
  dataset s1 = dataset s2 → dataset_name s1 dataset_key = dataset_name s2 dataset_key.
Proof. unfold dataset_name. by intros ->. Qed.

(** One dataset: the query is issued first; when it fails the exception
    leaves the method, otherwise the objects are recorded. *)
Lemma introspect_dataset_run dataset_key objects s :
  introspect_dataset read_data (dataset_key, objects) s =
    match read_data (catalog_query (format_opt (dataset_name s dataset_key)) objects) with
    | Ok rows =>
        (Ok (),
         set_requested_objects
           (log_query s (catalog_query (format_opt (dataset_name s dataset_key)) objects))
           (foldl (introspect_object (db_objects_of rows) dataset_key)
              (match _requested_objects s !! dataset_key with
               | Some _ => _requested_objects s
               | None => <[dataset_key := ∅]> (_requested_objects s)
               end) objects))
    | Raise e =>
        (Raise e,
         log_query s (catalog_query (format_opt (dataset_name s dataset_key)) objects))
    end.
Proof.
  unfold introspect_dataset, bind, run_query.
  by destruct (read_data _).
Qed.

Lemma introspect_dataset_ok dataset_key objects s s' :
  introspect_dataset read_data (dataset_key, objects) s = (Ok (), s') →
  ∃ rows objs',
    read_data (catalog_query (format_opt (dataset_name s dataset_key)) objects) = Ok rows
    ∧ dataset s' = dataset s
    ∧ issued_queries s' =
        issued_queries s ++ [catalog_query (format_opt (dataset_name s dataset_key)) objects]
    ∧ _requested_objects s' = <[dataset_key := objs']> (_requested_objects s)
    ∧ ∀ obj_name, obj_name ∈ objects →
        ∃ info, objs' !! obj_name = Some info
                ∧ recorded (db_objects_of rows) obj_name info.
Proof.
  rewrite introspect_dataset_run.
  destruct (read_data _) as [rows|e]; [|done].
  intros [= <-]. exists rows.
  destruct (_requested_objects s !! dataset_key) as [objs|] eqn:Hds.
  - destruct (introspect_objects_spec (db_objects_of rows) dataset_key objects
                (_requested_objects s) objs Hds) as (objs' & Hfold & Hin & _).
    exists objs'. by rewrite Hfold.
  - destruct (introspect_objects_spec (db_objects_of rows) dataset_key objects
                (<[dataset_key := ∅]> (_requested_objects s)) ∅ (lookup_insert_eq _ _ _))
      as (objs' & Hfold & Hin & _).
    exists objs'. rewrite Hfold. simpl. by rewrite insert_insert_eq.
Qed.


(** A non-empty project key stops the method where the loop meets it. *)
Lemma introspect_project_raises project datasets rest s :
  project ≠ "" →
  _introspect read_data ((project, datasets) :: rest) s = (Raise ValueError_three_levels, s).
Proof.
  intros Hp. unfold _introspect. rewrite for_each_cons.
  by rewrite decide_True.
Qed.

(** A run that returns has met empty project keys only. *)
Lemma introspect_ok_projects to_introspect s s' :
  _introspect read_data to_introspect s = (Ok (), s') →
  Forall (λ pd, pd.1 = "") to_introspect.
Proof.
  revert s. induction to_introspect as [|[project datasets] rest IH]; intros s Hrun;
    [constructor|].
  destruct (decide (project = "")) as [->|Hp].
  - constructor; [done|].
    unfold _introspect in Hrun. rewrite for_each_cons in Hrun.
    rewrite decide_False in Hrun by (by intros ?).
    destruct (for_each datasets (introspect_dataset read_data) s) as [[[]|e] s1]; [|done].
    by apply (IH s1).
  - by rewrite introspect_project_raises in Hrun.
Qed.

(** The queries a returning run has issued. *)
Lemma introspect_datasets_queries (datasets : list (option string * list string)) s s' :
  for_each datasets (introspect_dataset read_data) s = (Ok (), s') →
  dataset s' = dataset s
  ∧ issued_queries s' =
      issued_queries s
      ++ ((λ d, catalog_query (format_opt (dataset_name s d.1)) d.2) <$> datasets).
Proof.
  revert s. induction datasets as [|[dk objects] datasets IH]; intros s Hrun.
  - injection Hrun as <-. by rewrite app_nil_r.
  - rewrite for_each_cons in Hrun.
    destruct (introspect_dataset read_data (dk, objects) s) as [[[]|e] s1] eqn:Hfirst;
      [|done].
    apply introspect_dataset_ok in Hfirst as (rows & objs' & _ & Hd & Hq & _).
    destruct (IH s1 Hrun) as [Hd' Hq'].
    split; [congruence|].
    rewrite Hq', Hq, <- app_assoc. simpl. do 2 f_equal.
    apply list_fmap_ext. intros _ d _. by rewrite (dataset_name_ext s1 s).
Qed.

Lemma introspect_queries to_introspect s s' :
  _introspect read_data to_introspect s = (Ok (), s') →
  dataset s' = dataset s
  ∧ issued_queries s' = issued_queries s ++ queries_of s to_introspect.
Proof.
  revert s. induction to_introspect as [|[project datasets] rest IH]; intros s Hrun.
  - injection Hrun as <-. unfold queries_of. simpl. by rewrite app_nil_r.
  - destruct (decide (project = "")) as [->|Hp];
      [|by rewrite introspect_project_raises in Hrun].
    unfold _introspect in Hrun. rewrite for_each_cons in Hrun.
    rewrite decide_False in Hrun by (by intros ?).
    destruct (for_each datasets (introspect_dataset read_data) s) as [[[]|e] s1] eqn:Hfirst;
      [|done].
    apply introspect_datasets_queries in Hfirst as [Hd Hq].
    destruct (IH s1 Hrun) as [Hd' Hq'].
    split; [congruence|].
    rewrite Hq', Hq, <- app_assoc. f_equal.
    unfold queries_of. simpl. f_equal.
    apply list_bind_ext; [|done]. intros pd.
    apply list_fmap_ext. intros _ d _. by rewrite (dataset_name_ext s1 s).
Qed.




(** C9, as the code has it: the loop raises the error when it meets the
    non-empty project key.  When that key is the first one, no query has
    been issued and the state is untouched; otherwise the entries before it
    are introspected first, their queries issued and their objects
    recorded, and the error follows unless one of those queries failed.
    Nothing is queried for the offending entry or for the entries after
    it. *)
Theorem introspect_three_levels pre project datasets rest s :
  project ≠ "" →
  _introspect read_data ((project, datasets) :: rest) s = (Raise ValueError_three_levels, s)
  ∧ _introspect read_data (pre ++ (project, datasets) :: rest) s =
      match _introspect read_data pre s with
      | (Ok _, s') => (Raise ValueError_three_levels, s')
      | (Raise e, s') => (Raise e, s')
      end
  ∧ ∀ s', _introspect read_data pre s = (Ok (), s') →
      issued_queries s' = issued_queries s ++ queries_of s pre.
Proof.
  intros Hp. split_and!.
  - by apply introspect_project_raises.
  - unfold _introspect at 1. rewrite for_each_app. unfold bind.
    fold (_introspect read_data pre).
    destruct (_introspect read_data pre s) as [[[]|e] s1]; [|done].
    by apply introspect_project_raises.
  - intros s' Hrun. by apply introspect_queries in Hrun as [_ ?].
Qed.

End Introspect.

Section IntrospectExamples.
Import Bigquery Samples.

(** The sample catalog on the request for [t] and [u]: [t] is recorded as
    the clustered table, [u], which the catalog does not hold, as an
    object of unknown kind. *)
Example introspect_request_sales :
  (_introspect catalog_t request_sales fresh).1 = Ok ()
  ∧ _requested_objects (_introspect catalog_t request_sales fresh).2 =
      {[ Some "sales" := {[ "t" := info_clustered; "u" := empty_info ]} ]}
  ∧ issued_queries (_introspect catalog_t request_sales fresh).2 =
      [catalog_query "sales" ["t"; "u"]].
Proof. split_and!; vm_compute; reflexivity. Qed.



(** The default path of an unknown object: [u] was requested and is not in
    the catalog, so creating it with a partition drops a view first. *)
Example create_table_after_introspect :
  create_table sample_render (_introspect catalog_t request_sales fresh).2
    "u" (Some "sales") None false ddl_t =
  "DROP VIEW IF EXISTS sales.u;" +:+ LF +:+ "CREATE OR REPLACE TABLE sales.u PARTITION BY ts".
Proof. vm_compute. reflexivity. Qed.

(** The example of section 8: a request whose only project key is
    [catalog] raises at once; no query is issued and nothing is recorded. *)
Lemma introspect_three_levels_witness :
  _introspect catalog_t [("catalog", [(Some "namespace", ["obj"])])] fresh =
    (Raise ValueError_three_levels, fresh).
Proof.
  apply (proj1 (introspect_three_levels catalog_t [] "catalog"
                  [(Some "namespace", ["obj"])] [] fresh ltac:(discriminate))).
Defined.

(** C9 as stated fails: when a two-level entry stands before the
    three-level one, its query is issued and its object recorded before
    the error is raised. *)
Lemma introspect_three_levels_counterexample :
  (_introspect catalog_t request_mixed fresh).1 = Raise ValueError_three_levels
  ∧ issued_queries (_introspect catalog_t request_mixed fresh).2 =
      [catalog_query "sales" ["t"]]
  ∧ issued_queries (_introspect catalog_t request_mixed fresh).2 ≠ []
  ∧ _requested_objects (_introspect catalog_t request_mixed fresh).2 =
      {[ Some "sales" := {[ "t" := info_clustered ]} ]}.
Proof.
  split_and!.
  - vm_compute. reflexivity.
  - vm_compute. reflexivity.
  - intros H. vm_compute in H. discriminate H.
  - vm_compute. reflexivity.
Qed.

End IntrospectExamples.

(** * Further properties *)

(** ** The validators, on every input *)

Section ValidatorsTotal.

(** [columns_unique] returns exactly on the lists without a repeated name,
    and then returns the list it was given. *)
Theorem columns_unique_ok_iff (v v' : list DDL.Columns) :
  DDL.columns_unique v = Ok v' ↔ NoDup (DDL.name <$> v) ∧ v' = v.
Proof.
  split.
  - intros Hok. destruct (decide (NoDup (DDL.name <$> v))) as [Hnd|Hdup].
    + rewrite (columns_unique_accepts v Hnd) in Hok. by injection Hok as <-.
    + by rewrite (columns_unique_raises v Hdup) in Hok.
  - intros [Hnd ->]. by apply columns_unique_accepts.
Qed.

Lemma transform_str_cols_names (v : list DDL.raw_column) :
  DDL.name <$> DDL.transform_str_cols v = DDL.raw_name <$> v.
Proof.
  unfold DDL.transform_str_cols. rewrite <- list_fmap_compose.
  apply list_fmap_ext. by intros _ [c|c] _.
Qed.

(** A column written as a bare string and one written as a [Columns]
    object clash when they carry the same name: after [transform_str_cols]
    the uniqueness check sees the declared names only, in their order. *)
Theorem transform_str_cols_unique (v : list DDL.raw_column) :
  length (DDL.transform_str_cols v) = length v
  ∧ DDL.name <$> DDL.transform_str_cols v = DDL.raw_name <$> v
  ∧ (DDL.columns_unique (DDL.transform_str_cols v) = Ok (DDL.transform_str_cols v)
     ↔ NoDup (DDL.raw_name <$> v))
  ∧ (∀ e, DDL.columns_unique (DDL.transform_str_cols v) = Raise e ↔
       ¬ NoDup (DDL.raw_name <$> v)
       ∧ ∃ dupes : gset string,
           e = ValueError_duplicate_columns dupes
           ∧ ∀ x, x ∈ dupes ↔ 1 < occurrences x (DDL.raw_name <$> v)).
Proof.
  split_and!.
  - unfold DDL.transform_str_cols. apply length_fmap.
  - apply transform_str_cols_names.
  - rewrite <- transform_str_cols_names. split.
    + intros Hok.
      destruct (decide (NoDup (DDL.name <$> DDL.transform_str_cols v))) as [Hnd|Hdup];
        [done|].
      by rewrite (columns_unique_raises _ Hdup) in Hok.
    + apply columns_unique_accepts.
  - intros e. rewrite <- transform_str_cols_names. split.
    + intros Hraise.
      destruct (decide (NoDup (DDL.name <$> DDL.transform_str_cols v))) as [Hnd|Hdup].
      { by rewrite (columns_unique_accepts _ Hnd) in Hraise. }
      split; [done|].
      rewrite (columns_unique_raises _ Hdup) in Hraise. injection Hraise as <-.
      eexists. split; [done|]. intros x. apply dupes_spec.
    + intros (Hdup & dupes & -> & Hdupes).
      rewrite (columns_unique_raises _ Hdup). do 2 f_equal.
      apply set_eq. intros x. by rewrite dupes_spec, Hdupes.
Qed.

(** [validate_properties] returns only when there is nothing to check: no
    properties, no cluster, or an empty column list; it then returns its
    argument.  With a cluster and at least one validated column it always
    raises. *)
Theorem validate_properties_ok_iff (v r : option DDL.Properties)
    (values_columns : option (list DDL.Columns)) :
  DDL.validate_properties v values_columns = Ok r
  ↔ r = v ∧ (v ≫= DDL.cluster = None ∨ values_columns = Some []).
Proof.
  unfold DDL.validate_properties.
  destruct v as [p|]; simpl; [|split; [intros [= <-]; auto | by intros [-> _]]].
  destruct (DDL.cluster p) as [c|] eqn:Hc;
    [|split; [intros [= <-]; auto | by intros [-> _]]].
  destruct values_columns as [[|col columns]|]; simpl.
  - split; [intros [= <-]; auto | by intros [-> _]].
  - unfold DDL.Properties_iter. rewrite Hc. simpl.
    destruct (DDL.partition p); simpl; (split; [done | by intros [_ [?|?]]]).
  - split; [done | by intros [_ [?|?]]].
Qed.

End ValidatorsTotal.

(** ** Names *)

(** [fully_qualify] keeps names apart under one namespace, but not across
    namespaces: an unqualified name that holds a dot reads like a qualified
    one. *)
Theorem fully_qualify_collision (ns n n' : string) (schema : option string) :
  (fully_qualify n schema = fully_qualify n' schema → n = n')
  ∧ fully_qualify (ns +:+ "." +:+ n) None = fully_qualify n (Some ns).
Proof.
  split.
  - unfold fully_qualify. destruct schema as [s|]; intros Heq.
    + by apply (inj (String.app _)) in Heq.
    + by rewrite !string_app_empty_l in Heq.
  - unfold fully_qualify. by rewrite string_app_empty_l, string_app_assoc.
Qed.

(** ** The catalog rows *)

Section CatalogRows.
Import Bigquery.

Lemma db_objects_foldl_lookup (rows : list catalog_row) (m : gmap string db_object)
    (n : string) :
  foldl (λ m o, <[row_name o := {| db_type := row_type o; db_columns := row_columns o |}]> m)
        m rows !! n =
    match last (filter (λ o, row_name o = n) rows) with
    | Some o => Some {| db_type := row_type o; db_columns := row_columns o |}
    | None => m !! n
    end.
Proof.
  revert m. induction rows as [|a rows IH]; intros m; [done|].
  simpl. rewrite IH, filter_cons.
  destruct (decide (row_name a = n)) as [<-|Hne].
  - rewrite last_cons, lookup_insert_eq.
    by destruct (last (filter (λ o, row_name o = row_name a) rows)).
  - rewrite lookup_insert_ne by done. done.
Qed.

(** The dictionary [db_objects] holds a name exactly when some row carries
    it, and then with the type and columns of the last such row. *)
Theorem db_objects_of_lookup (rows : list catalog_row) (n : string) :
  db_objects_of rows !! n =
    (λ o, {| db_type := row_type o; db_columns := row_columns o |})
      <$> last (filter (λ o, row_name o = n) rows)
  ∧ (is_Some (db_objects_of rows !! n) ↔ n ∈ row_name <$> rows).
Proof.
  assert (db_objects_of rows !! n =
            (λ o, {| db_type := row_type o; db_columns := row_columns o |})
              <$> last (filter (λ o, row_name o = n) rows)) as Heq.
  { unfold db_objects_of. rewrite db_objects_foldl_lookup, lookup_empty.
    by destruct (last _). }
  split; [done|].
  rewrite Heq, fmap_is_Some, last_is_Some, list_elem_of_fmap. split.
  - intros Hne. destruct (filter (λ o, row_name o = n) rows) as [|o l] eqn:Hf; [done|].
    assert (o ∈ filter (λ o, row_name o = n) rows) as Ho by (rewrite Hf; left).
    apply list_elem_of_filter in Ho as [Hn Ho]. by exists o.
  - intros (o & -> & Ho) Hnil.
    assert (o ∈ filter (λ o', row_name o' = row_name o) rows) as Hin
      by by apply list_elem_of_filter.
    rewrite Hnil in Hin. by apply elem_of_nil in Hin.
Qed.

End CatalogRows.

(** ** [_introspect]: the recorded dictionaries, exactly *)

Section IntrospectExact.
Import Bigquery.

Implicit Types ro : gmap (option string) (gmap string db_info).
Implicit Types objs : gmap string db_info.

Lemma db_info_eq (a b : db_info) :
  info_type a = info_type b →
  info_partition a = info_partition b →
  info_cluster a = info_cluster b →
  a = b.
Proof. destruct a, b. simpl. by intros -> -> ->. Qed.

(** The loop over the columns, with the partition it leaves: the last
    flagged column wins, and without a flagged column the entry stays. *)
Lemma column_loop_exact ro dataset obj_name objs info cluster_cols columns :
  ro !! dataset = Some objs →
  objs !! obj_name = Some info →
  foldl (column_step dataset obj_name) (ro, cluster_cols) columns =
    (<[dataset :=
         <[obj_name :=
             {| info_type := info_type info;
                info_partition :=
                  match last (filter (λ c, is_partition c = Some true) columns) with
                  | Some c => Some (column_name c)
                  | None => info_partition info
                  end;
                info_cluster := info_cluster info |}]> objs]> ro,
     cluster_cols
     ++ (column_name <$> filter (λ c, is_Some (clustering_ordinal_position c)) columns)).
Proof.
  revert ro objs info cluster_cols.
  induction columns as [|c columns IH]; intros ro objs info cluster_cols Hds Hobj.
  - simpl. rewrite app_nil_r. f_equal. symmetry.
    replace {| info_type := info_type info; info_partition := info_partition info;
               info_cluster := info_cluster info |} with info by by destruct info.
    by apply insert_info_id.
  - simpl. unfold column_step at 2. simpl.
    assert (cluster_cols
            ++ (column_name
                  <$> filter (λ c, is_Some (clustering_ordinal_position c)) (c :: columns))
            = match clustering_ordinal_position c with
              | Some _ => cluster_cols ++ [column_name c]
              | None => cluster_cols
              end
              ++ (column_name
                    <$> filter (λ c, is_Some (clustering_ordinal_position c)) columns))
      as ->.
    { rewrite filter_cons.
      destruct (clustering_ordinal_position c); simpl; by rewrite <- ?app_assoc. }
    rewrite filter_cons.
    destruct (decide (is_partition c = Some true)) as [Hflag|Hflag].
    + rewrite (update_info_insert _ _ _ _ _ _ Hds Hobj).
      rewrite (IH _ (<[obj_name := set_partition (column_name c) info]> objs)
                 (set_partition (column_name c) info))
        by apply lookup_insert_eq.
      rewrite insert_info_twice, last_cons. simpl.
      by destruct (last (filter (λ c, is_partition c = Some true) columns)).
    + by rewrite (IH _ objs info).
Qed.

Lemma object_type_of_table (o : db_object) :
  object_type_of o = Some "table" ↔ db_type o = "BASE TABLE".
Proof.
  unfold object_type_of. repeat case_decide; split; (done || congruence).
Qed.

(** One pass of the loop over the requested objects writes [info_of]. *)
Lemma introspect_object_exact db_objects dataset ro obj_name objs :
  ro !! dataset = Some objs →
  introspect_object db_objects dataset ro obj_name =
    <[dataset := <[obj_name := info_of db_objects obj_name]> objs]> ro.
Proof.
  intros Hds. unfold introspect_object, info_of.
  rewrite (store_info_insert _ _ _ _ _ Hds).
  destruct (db_objects !! obj_name) as [o|]; [|done].
  set (ro0 := <[dataset := <[obj_name := empty_info]> objs]> ro).
  set (info1 := {| info_type := object_type_of o; info_partition := None;
                   info_cluster := None |}).
  assert ((if decide (db_type o = "BASE TABLE")
           then update_info dataset obj_name (set_type "table") ro0
           else if decide (db_type o = "VIEW")
           then update_info dataset obj_name (set_type "view") ro0
           else ro0) = <[dataset := <[obj_name := info1]> objs]> ro) as ->.
  { unfold info1, object_type_of, ro0. repeat case_decide.
    - erewrite update_info_insert by apply lookup_insert_eq. apply insert_info_twice.
    - erewrite update_info_insert by apply lookup_insert_eq. apply insert_info_twice.
    - done. }
  rewrite (column_loop_exact _ dataset obj_name (<[obj_name := info1]> objs) info1)
    by apply lookup_insert_eq.
  rewrite insert_info_twice. simpl. fold (cluster_columns_of o).
  unfold partition_column_of.
  destruct (cluster_columns_of o) as [|n names].
  - reflexivity.
  - erewrite update_info_insert by apply lookup_insert_eq.
    rewrite insert_info_twice. reflexivity.
Qed.

Lemma introspect_objects_exact db_objects dataset objects ro objs :
  ro !! dataset = Some objs →
  foldl (introspect_object db_objects dataset) ro objects =
    <[dataset := foldl (λ m o, <[o := info_of db_objects o]> m) objs objects]> ro.
Proof.
  revert ro objs. induction objects as [|o objects IH]; intros ro objs Hds.
  - simpl. by rewrite insert_id.
  - simpl. rewrite (introspect_object_exact _ _ _ _ _ Hds).
    rewrite (IH _ (<[o := info_of db_objects o]> objs)) by apply lookup_insert_eq.
    by rewrite insert_insert_eq.
Qed.

Lemma foldl_insert_lookup (f : string → db_info) objects objs (x : string) :
  foldl (λ m o, <[o := f o]> m) objs objects !! x =
    if decide (x ∈ objects) then Some (f x) else objs !! x.
Proof.
  revert objs. induction objects as [|o objects IH]; intros objs.
  - destruct (decide (x ∈ [])) as [Hin|_]; [by apply elem_of_nil in Hin | done].
  - simpl foldl. rewrite IH.
    destruct (decide (x ∈ o :: objects)) as [Hin|Hout].
    + destruct (decide (x ∈ objects)) as [|Hno]; [done|].
      apply elem_of_cons in Hin as [->|?]; [|done]. apply lookup_insert_eq.
    + apply not_elem_of_cons in Hout as [Hne Hout].
      rewrite decide_False by done. by rewrite lookup_insert_ne.
Qed.

(** What the state holds after the objects of one dataset are recorded. *)
Lemma recorded_lookup_info db_objects dataset objects ro dataset_key obj_name :
  lookup_info
    (foldl (introspect_object db_objects dataset)
       (match ro !! dataset with
        | Some _ => ro
        | None => <[dataset := ∅]> ro
        end) objects) dataset_key obj_name =
    if decide (dataset_key = dataset ∧ obj_name ∈ objects)
    then Some (info_of db_objects obj_name)
    else lookup_info ro dataset_key obj_name.
Proof.
  assert (∃ objs,
            (match ro !! dataset with
             | Some _ => ro
             | None => <[dataset := ∅]> ro
             end) !! dataset = Some objs
            ∧ objs !! obj_name = lookup_info ro dataset obj_name
            ∧ ∀ x, <[dataset := x]> (match ro !! dataset with
                                     | Some _ => ro
                                     | None => <[dataset := ∅]> ro
                                     end) = <[dataset := x]> ro) as (objs & Hds & Hobj & Hins).
  { unfold lookup_info. destruct (ro !! dataset) as [objs|] eqn:Hro.
    - exists objs. by rewrite Hro.
    - exists ∅. rewrite lookup_insert_eq. split_and!; [done..|].
      intros x. by rewrite insert_insert_eq. }
  rewrite (introspect_objects_exact _ _ _ _ _ Hds), Hins.
  unfold lookup_info at 1.
  destruct (decide (dataset_key = dataset)) as [->|Hne].
  - rewrite lookup_insert_eq. simpl. rewrite foldl_insert_lookup, Hobj.
    destruct (decide (obj_name ∈ objects)).
    + by rewrite decide_True.
    + rewrite decide_False; [done|]. by intros [_ ?].
  - rewrite lookup_insert_ne by done. rewrite decide_False; [done|]. by intros [? _].
Qed.

End IntrospectExact.

(** ** [_introspect]: what a run changes, and what it leaves *)

Section IntrospectState.
Import Bigquery.

Variable read_data : string → result (list catalog_row).

Implicit Types s : self.

Lemma introspect_datasets_frame (datasets : list (option string * list string))
    s r s' dataset_key obj_name :
  for_each datasets (introspect_dataset read_data) s = (r, s') →
  dataset s' = dataset s
  ∧ ((∀ objects, (dataset_key, objects) ∈ datasets → obj_name ∉ objects) →
     lookup_info (_requested_objects s') dataset_key obj_name =
       lookup_info (_requested_objects s) dataset_key obj_name)
  ∧ (is_Some (lookup_info (_requested_objects s) dataset_key obj_name) →
     is_Some (lookup_info (_requested_objects s') dataset_key obj_name)).
Proof.
  revert s. induction datasets as [|[dk objects] datasets IH]; intros s Hrun.
  - by injection Hrun as <- <-.
  - rewrite for_each_cons, introspect_dataset_run in Hrun.
    destruct (read_data _) as [rows|e].
    + destruct (IH _ Hrun) as (Hd & Hframe & Hmono). simpl in Hd, Hframe, Hmono.
      rewrite recorded_lookup_info in Hframe, Hmono.
      split_and!; [done| |].
      * intros Hout. rewrite Hframe.
        -- rewrite decide_False; [done|]. intros [-> Hin]. apply (Hout objects); [left|done].
        -- intros objects' Hin. apply Hout. by right.
      * intros Hsome. apply Hmono. by case_decide.
    + by injection Hrun as <- <-.
Qed.

(** A run of [_introspect], whether it returns or raises, leaves the default
    dataset as it is, leaves every dictionary of an object the request does
    not name as it is, and removes no dictionary. *)
Theorem introspect_frame to_introspect s r s' dataset_key obj_name :
  _introspect read_data to_introspect s = (r, s') →
  dataset s' = dataset s
  ∧ (¬ requests to_introspect dataset_key obj_name →
     lookup_info (_requested_objects s') dataset_key obj_name =
       lookup_info (_requested_objects s) dataset_key obj_name)
  ∧ (is_Some (lookup_info (_requested_objects s) dataset_key obj_name) →
     is_Some (lookup_info (_requested_objects s') dataset_key obj_name)).
Proof.
  revert s. induction to_introspect as [|[project datasets] rest IH]; intros s Hrun.
  - by injection Hrun as <- <-.
  - destruct (decide (project = "")) as [->|Hp].
    + unfold _introspect in Hrun. rewrite for_each_cons in Hrun.
      rewrite decide_False in Hrun by (by intros ?).
      destruct (for_each datasets (introspect_dataset read_data) s) as [[[]|e] s1] eqn:Hfirst.
      * destruct (introspect_datasets_frame _ _ _ _ dataset_key obj_name Hfirst)
          as (Hd1 & Hframe1 & Hmono1).
        destruct (IH s1 Hrun) as (Hd & Hframe & Hmono).
        split_and!; [congruence | | auto].
        intros Hout. rewrite Hframe, Hframe1; [done | |].
        -- intros objects Hin Hobj. apply Hout. exists "", datasets, objects.
           split_and!; [left | done..].
        -- intros (p & d & o & Hp & Hdo & Ho). apply Hout. exists p, d, o.
           split_and!; [by right | done..].
      * injection Hrun as <- <-.
        destruct (introspect_datasets_frame _ _ _ _ dataset_key obj_name Hfirst)
          as (Hd1 & Hframe1 & Hmono1).
        split_and!; [done | | done].
        intros Hout. apply Hframe1. intros objects Hin Hobj. apply Hout.
        exists "", datasets, objects. split_and!; [left | done..].
    + rewrite introspect_project_raises in Hrun by done. by injection Hrun as <- <-.
Qed.

Lemma introspect_ok_single to_introspect s s' :
  NoDup to_introspect.*1 →
  _introspect read_data to_introspect s = (Ok (), s') →
  to_introspect = [] ∧ s' = s
  ∨ ∃ datasets, to_introspect = [("", datasets)]
                ∧ for_each datasets (introspect_dataset read_data) s = (Ok (), s').
Proof.
  intros Hnd Hrun. pose proof (introspect_ok_projects _ _ _ _ Hrun) as Hall.
  destruct to_introspect as [|[p1 d1] [|[p2 d2] rest]].
  - left. by injection Hrun as <-.
  - right. exists d1. apply Forall_cons in Hall as [Hp1 _]. simpl in Hp1. subst p1.
    split; [done|]. unfold _introspect in Hrun. rewrite for_each_cons in Hrun.
    rewrite decide_False in Hrun by (by intros ?).
    destruct (for_each d1 (introspect_dataset read_data) s) as [[[]|e] s1]; [|done].
    by injection Hrun as <-.
  - apply Forall_cons in Hall as [Hp1 Hall]. apply Forall_cons in Hall as [Hp2 _].
    simpl in *. subst. apply NoDup_cons in Hnd as [Hnd _].
    exfalso. apply Hnd. left.
Qed.

Lemma introspect_datasets_exact (datasets : list (option string * list string)) s s' :
  NoDup datasets.*1 →
  for_each datasets (introspect_dataset read_data) s = (Ok (), s') →
  ∀ dataset_key objects obj_name,
    (dataset_key, objects) ∈ datasets →
    obj_name ∈ objects →
    ∃ rows,
      read_data (catalog_query (format_opt (dataset_name s dataset_key)) objects) = Ok rows
      ∧ lookup_info (_requested_objects s') dataset_key obj_name =
          Some (info_of (db_objects_of rows) obj_name).
Proof.
  revert s. induction datasets as [|[dk objects] datasets IH];
    intros s Hnd Hrun dataset_key objects0 obj_name Hin Hobj.
  - by apply elem_of_nil in Hin.
  - simpl in Hnd. apply NoDup_cons in Hnd as [Hdk Hnd].
    rewrite for_each_cons, introspect_dataset_run in Hrun.
    destruct (read_data (catalog_query (format_opt (dataset_name s dk)) objects))
      as [rows|e] eqn:Hread; [|done].
    apply elem_of_cons in Hin as [[= -> ->]|Hin].
    + exists rows. split; [done|].
      destruct (introspect_datasets_frame _ _ _ _ dk obj_name Hrun) as (_ & Hframe & _).
      rewrite Hframe.
      * simpl. rewrite recorded_lookup_info. by rewrite decide_True.
      * intros objects' Hin'. exfalso. apply Hdk.
        apply list_elem_of_fmap. by exists (dk, objects').
    + destruct (IH _ Hnd Hrun dataset_key objects0 obj_name Hin Hobj) as (rows' & Hr & Hl).
      exists rows'. split; [|done]. by rewrite <- Hr.
Qed.

(** After a run that returns, the dictionary of every requested object is
    the one [info_of] reads off the rows of its dataset's query: the kind
    of the row, the last column flagged as partition, and the columns with
    a cluster ordinal; or the dictionary of an unknown object when there is
    no row.  What the state held for the object before plays no part. *)
Theorem introspect_records_exact to_introspect s s' :
  NoDup to_introspect.*1 →
  (∀ project datasets, (project, datasets) ∈ to_introspect → NoDup datasets.*1) →
  _introspect read_data to_introspect s = (Ok (), s') →
  ∀ project datasets dataset_key objects obj_name,
    (project, datasets) ∈ to_introspect →
    (dataset_key, objects) ∈ datasets →
    obj_name ∈ objects →
    ∃ rows,
      read_data (catalog_query (format_opt (dataset_name s dataset_key)) objects) = Ok rows
      ∧ lookup_info (_requested_objects s') dataset_key obj_name =
          Some (info_of (db_objects_of rows) obj_name).
Proof.
  intros Hnd Hnds Hrun project datasets dataset_key objects obj_name Hp Hd Hobj.
  destruct (introspect_ok_single _ _ _ Hnd Hrun) as [[-> _]|(datasets' & -> & Hrun')].
  - by apply elem_of_nil in Hp.
  - apply list_elem_of_singleton in Hp as [= -> ->].
    eapply introspect_datasets_exact; [|done..].
    apply (Hnds ""). left.
Qed.

(** When the query of a dataset fails, the exception leaves the method as
    it is; the datasets before it stay recorded, the failed query counts
    as issued, and nothing is recorded or queried for the failing dataset
    or the ones after it. *)
Theorem introspect_query_failure pre dataset_key objects rest s s1 e :
  _introspect read_data [("", pre)] s = (Ok (), s1) →
  read_data (catalog_query (format_opt (dataset_name s dataset_key)) objects) = Raise e →
  _introspect read_data [("", pre ++ (dataset_key, objects) :: rest)] s =
    (Raise e,
     log_query s1 (catalog_query (format_opt (dataset_name s dataset_key)) objects)).
Proof.
  intros Hpre Hread. unfold _introspect in *.
  rewrite for_each_cons in Hpre. rewrite for_each_cons.
  rewrite decide_False in Hpre by (by intros ?). rewrite decide_False by (by intros ?).
  destruct (for_each pre (introspect_dataset read_data) s) as [[[]|e'] s1'] eqn:Hrun;
    [|done].
  injection Hpre as <-.
  rewrite for_each_app. unfold bind. rewrite Hrun.
  rewrite for_each_cons, introspect_dataset_run.
  destruct (introspect_datasets_frame _ _ _ _ None "" Hrun) as (Hd & _).
  rewrite (dataset_name_ext s1' s) by done.
  by rewrite Hread.
Qed.


End IntrospectState.

(** ** [create_table] on the state [_introspect] leaves *)

Section Reconcile.
Import Bigquery.

Variable render : render_args → string.
Variable read_data : string → result (list catalog_row).

Implicit Types s : self.

(** [create_table] after a run of [_introspect] that returned decides by
    the catalog row of the table.  With a row, nothing is dropped exactly
    when the desired cluster columns, in any order, and the desired
    partition are those of the row; otherwise a [BASE TABLE] row gives a
    table drop and any other row a view drop.  Without a row, nothing is
    dropped exactly when no layout is desired, and a view is dropped
    otherwise.  The template is told that a table, or a view, exists by the
    kind recorded from the row. *)
Theorem create_table_follows_catalog to_introspect s s' project datasets schema objects
    table select replace ddl :
  NoDup to_introspect.*1 →
  (∀ project datasets, (project, datasets) ∈ to_introspect → NoDup datasets.*1) →
  _introspect read_data to_introspect s = (Ok (), s') →
  (project, datasets) ∈ to_introspect →
  (schema, objects) ∈ datasets →
  table ∈ objects →
  ∃ rows,
    read_data (catalog_query (format_opt (dataset_name s schema)) objects) = Ok rows
    ∧ (create_table_plan render s' table schema select replace ddl).1 =
        match db_objects_of rows !! table with
        | Some o =>
            if decide ((list_to_set (default [] (ddl_cluster ddl)) : gset string) =
                         list_to_set (cluster_columns_of o)
                       ∧ default "" (ddl_partition ddl) = default "" (partition_column_of o))
            then ""
            else if decide (db_type o = "BASE TABLE")
            then "DROP TABLE IF EXISTS " +:+ fully_qualify table schema +:+ ";" +:+ LF
            else "DROP VIEW IF EXISTS " +:+ fully_qualify table schema +:+ ";" +:+ LF
        | None =>
            if decide ((list_to_set (default [] (ddl_cluster ddl)) : gset string) = ∅
                       ∧ default "" (ddl_partition ddl) = "")
            then ""
            else "DROP VIEW IF EXISTS " +:+ fully_qualify table schema +:+ ";" +:+ LF
        end
    ∧ create_table render s' table schema select replace ddl =
        (create_table_plan render s' table schema select replace ddl).1
        +:+ render (render_args_for (info_of (db_objects_of rows) table)
                      table schema select ddl).
Proof.
  intros Hnd Hnds Hrun Hp Hd Hobj.
  assert (∃ rows,
            read_data (catalog_query (format_opt (dataset_name s schema)) objects) = Ok rows
            ∧ lookup_info (_requested_objects s') schema table =
                Some (info_of (db_objects_of rows) table)) as (rows & Hread & Hinfo).
  { destruct (introspect_ok_single read_data _ _ _ Hnd Hrun)
      as [[-> _]|(datasets' & -> & Hrun')].
    - by apply elem_of_nil in Hp.
    - apply list_elem_of_singleton in Hp as [= -> ->].
      eapply introspect_datasets_exact; [|done..].
      apply (Hnds ""). left. }
  exists rows. split; [done|].
  unfold lookup_info in Hinfo.
  destruct (_requested_objects s' !! schema) as [objs|] eqn:Hs; [|done].
  simpl in Hinfo.
  rewrite create_table_concat.
  rewrite (create_table_plan_query _ _ _ _ _ _ _ _ _ Hs Hinfo).
  rewrite (create_table_plan_drop _ _ _ _ _ _ _ _ _ Hs Hinfo).
  split; [|done].
  unfold info_of. destruct (db_objects_of rows !! table) as [o|]; simpl.
  - assert (default [] (match cluster_columns_of o with
                        | [] => None
                        | n :: names => Some (n :: names)
                        end) = cluster_columns_of o) as ->
      by by destruct (cluster_columns_of o).
    repeat case_decide; try done.
    + by rewrite object_type_of_table in *.
    + by rewrite object_type_of_table in *.
  - done.
Qed.

(** An object the instance holds no dictionary for, never requested, is
    treated as both an existing table and an existing view; a view is
    dropped first as soon as any layout is desired. *)
Theorem create_table_never_requested s table schema select replace ddl :
  lookup_info (_requested_objects s) schema table = None →
  create_table_plan render s table schema select replace ddl =
    (if decide ((list_to_set (default [] (ddl_cluster ddl)) : gset string) = ∅
                ∧ default "" (ddl_partition ddl) = "")
     then ""
     else "DROP VIEW IF EXISTS " +:+ fully_qualify table schema +:+ ";" +:+ LF,
     render {| arg_table_name := table;
               arg_full_name := fully_qualify table schema;
               arg_view_exists := true;
               arg_table_exists := true;
               arg_select := select;
               arg_replace := true;
               arg_can_replace_table := true;
               arg_needs_cascade := false;
               arg_cannot_specify_ddl_select := false;
               arg_all_columns_have_type :=
                 length (filter (λ c, is_Some (DDL.type c)) (default [] (ddl_columns ddl)));
               arg_ddl := ddl |}).
Proof.
  intros Hnone. unfold lookup_info in Hnone.
  unfold create_table_plan, existing_state. rewrite Hnone. simpl.
  rewrite or_empty_str_default, set_or_empty_default.
  f_equal; by repeat case_decide.
Qed.

End Reconcile.

Section RenderArguments.
Import Bigquery.

Implicit Types s : self.

(** The template argument [all_columns_have_type] is the number of columns
    that carry a type, not a yes or no: it is zero exactly when no column
    is typed, in particular without columns, and positive as soon as one
    column is typed, whether or not the others are. *)
Theorem create_table_typed_columns s table schema select replace ddl :
  ∃ args,
    (∀ render, (create_table_plan render s table schema select replace ddl).2 = render args)
    ∧ arg_ddl args = ddl
    ∧ arg_all_columns_have_type args =
        length (filter (λ c, is_Some (DDL.type c)) (default [] (ddl_columns ddl)))
    ∧ (arg_all_columns_have_type args = 0 ↔
         ∀ c, c ∈ default [] (ddl_columns ddl) → DDL.type c = None).
Proof.
  unfold create_table_plan.
  destruct (existing_state s schema table) as [[[[info te] ve] pc] cc].
  eexists. split; [intros render; reflexivity|]. simpl. split_and!; [done..|].
  rewrite length_zero_iff_nil. split.
  - intros Hnil c Hc. destruct (DDL.type c) as [ty|] eqn:Hty; [|done].
    assert (c ∈ filter (λ c, is_Some (DDL.type c)) (default [] (ddl_columns ddl))) as Hin.
    { apply list_elem_of_filter. split; [by rewrite Hty|done]. }
    rewrite Hnil in Hin. by apply elem_of_nil in Hin.
  - intros Hall. induction (default [] (ddl_columns ddl)) as [|c columns IH]; [done|].
    rewrite filter_cons. rewrite decide_False.
    + apply IH. intros c' Hc'. apply Hall. by right.
    + rewrite (Hall c) by left. by intros [? ?].
Qed.

(** The script of [move_table]: what [create_table] gives for the
    destination, fed by a [SELECT *] from the source, then a blank line and
    the drop of the source, which is neither conditional nor guarded by
    [IF EXISTS]. *)
Theorem move_table_statements s src_table dst_table src_schema dst_schema ddl :
  ∃ args,
    (∀ render,
       move_table render s src_table dst_table src_schema dst_schema ddl =
         (create_table_plan render s dst_table dst_schema
            (Some ("SELECT * FROM " +:+ fully_qualify src_table src_schema)) true ddl).1
         +:+ render args
         +:+ LF +:+ LF +:+ "DROP TABLE " +:+ fully_qualify src_table src_schema)
    ∧ arg_select args = Some ("SELECT * FROM " +:+ fully_qualify src_table src_schema)
    ∧ arg_table_name args = dst_table
    ∧ arg_full_name args = fully_qualify dst_table dst_schema
    ∧ arg_replace args = true
    ∧ arg_ddl args = ddl.
Proof.
  assert (∃ args,
            (∀ render,
               (create_table_plan render s dst_table dst_schema
                  (Some ("SELECT * FROM " +:+ fully_qualify src_table src_schema)) true ddl).2
               = render args)
            ∧ arg_select args = Some ("SELECT * FROM " +:+ fully_qualify src_table src_schema)
            ∧ arg_table_name args = dst_table
            ∧ arg_full_name args = fully_qualify dst_table dst_schema
            ∧ arg_replace args = true
            ∧ arg_ddl args = ddl) as (args & Hargs & Hrest).
  { unfold create_table_plan.
    destruct (existing_state s dst_schema dst_table) as [[[[info te] ve] pc] cc].
    eexists. split; [intros render; reflexivity|]. done. }
  exists args. split; [|done]. intros render.
  rewrite move_table_script, create_table_concat, Hargs.
  by rewrite string_app_assoc.
Qed.

(** The drop decision of [create_table] on the dictionary of [get_ddl]
    looks at [base_ddl] only for the layout keys the properties leave
    unset: a partition or a cluster list given in the properties replaces
    the one of [base_ddl]. *)
Theorem get_ddl_overrides_layout (render : render_args → string) s table schema select
    replace base_ddl base_ddl' properties :
  (properties ≫= DDL.partition = None → ddl_partition base_ddl = ddl_partition base_ddl') →
  (properties ≫= DDL.cluster = None → ddl_cluster base_ddl = ddl_cluster base_ddl') →
  ddl_partition (get_ddl base_ddl properties) =
    match properties ≫= DDL.partition with
    | Some p => Some p
    | None => ddl_partition base_ddl
    end
  ∧ ddl_cluster (get_ddl base_ddl properties) =
    match properties ≫= DDL.cluster with
    | Some c => Some c
    | None => ddl_cluster base_ddl
    end
  ∧ ddl_columns (get_ddl base_ddl properties) = ddl_columns base_ddl
  ∧ (create_table_plan render s table schema select replace
       (get_ddl base_ddl properties)).1 =
    (create_table_plan render s table schema select replace
       (get_ddl base_ddl' properties)).1.
Proof.
  intros Hp Hc.
  assert (∀ b, ddl_partition (get_ddl b properties) =
               match properties ≫= DDL.partition with
               | Some p => Some p
               | None => ddl_partition b
               end) as Hpart.
  { intros b. unfold get_ddl. destruct properties as [[[p|] [c|]]|]; done. }
  assert (∀ b, ddl_cluster (get_ddl b properties) =
               match properties ≫= DDL.cluster with
               | Some c => Some c
               | None => ddl_cluster b
               end) as Hclus.
  { intros b. unfold get_ddl. destruct properties as [[[p|] [c|]]|]; done. }
  split_and!; [done..| |].
  - unfold get_ddl. destruct properties as [[[p|] [c|]]|]; done.
  - unfold create_table_plan.
    destruct (existing_state s schema table) as [[[[info te] ve] pc] cc]. simpl.
    rewrite !Hpart, !Hclus.
    destruct (properties ≫= DDL.partition); destruct (properties ≫= DDL.cluster);
      rewrite <- ?Hp, <- ?Hc by done; done.
Qed.

(** The drop decision reads the desired cluster columns as a set: two
    declarations that name the same columns, in another order or with
    repetitions, and the same partition are never told apart, so
    reordering the cluster keys of a table drops nothing. *)
Theorem create_table_cluster_order (render : render_args → string) s table schema select
    replace ddl ddl' :
  (∀ x, x ∈ default [] (ddl_cluster ddl) ↔ x ∈ default [] (ddl_cluster ddl')) →
  default "" (ddl_partition ddl) = default "" (ddl_partition ddl') →
  (create_table_plan render s table schema select replace ddl).1 =
    (create_table_plan render s table schema select replace ddl').1.
Proof.
  intros Hc Hp. unfold create_table_plan.
  destruct (existing_state s schema table) as [[[[info te] ve] pc] cc]. simpl.
  rewrite !or_empty_str_default, !set_or_empty_default, Hp.
  assert ((list_to_set (default [] (ddl_cluster ddl)) : gset string) =
            list_to_set (default [] (ddl_cluster ddl'))) as ->; [|done].
  apply set_eq. intros x. by rewrite !elem_of_list_to_set.
Qed.

End RenderArguments.

(** ** [create_engine] *)

Section CreateEngine.
Import Bigquery.

Implicit Types s : self.

Lemma string_app_empty_r (a : string) : a +:+ "" = a.
Proof.
  induction a as [|x a IH]; [done|].
  change (String x (a +:+ "") = String x a). by rewrite IH.
Qed.

(** [create_engine] fails, with the [KeyError] of the missing key, exactly
    when the settings name no project.  Otherwise the URL is
    [bigquery://project], followed by [/dataset] when a dataset is given;
    sqlalchemy gets every other setting as it is and never the keys
    [project] and [dataset]; and the default dataset of the instance
    changes only when the settings give one. *)
Theorem create_engine_spec s (settings : gmap string string) :
  (create_engine s settings = None ↔ settings !! "project" = None)
  ∧ ∀ project s' call,
      create_engine s settings = Some (project, s', call) →
      settings !! "project" = Some project
      ∧ engine_url call =
          "bigquery://" +:+ project
          +:+ from_option (λ d, "/" +:+ d) "" (settings !! "dataset")
      ∧ (∀ k, engine_kwargs call !! k =
              if decide (k = "project" ∨ k = "dataset") then None else settings !! k)
      ∧ dataset s' = from_option Some (dataset s) (settings !! "dataset")
      ∧ _requested_objects s' = _requested_objects s
      ∧ issued_queries s' = issued_queries s.
Proof.
  unfold create_engine. split.
  - destruct (settings !! "project") as [project|]; [|done].
    rewrite lookup_delete_ne by done.
    destruct (settings !! "dataset"); split; done.
  - intros project s' call.
    destruct (settings !! "project") as [p|] eqn:Hp; [|done].
    rewrite lookup_delete_ne by done.
    destruct (settings !! "dataset") as [d|] eqn:Hd; intros [= <- <- <-]; simpl.
    + split_and!; [done | apply string_app_assoc | | done..].
      intros k. case_decide as Hk.
      * destruct Hk as [-> | ->].
        -- rewrite lookup_delete_ne by done. apply lookup_delete_eq.
        -- apply lookup_delete_eq.
      * rewrite !lookup_delete_ne; [done|intros <-; auto..].
    + split_and!; [done | by rewrite string_app_empty_r | | done..].
      intros k. case_decide as Hk.
      * destruct Hk as [-> | ->]; [apply lookup_delete_eq|].
        by rewrite lookup_delete_ne.
      * rewrite lookup_delete_ne; [done|intros <-; auto].
Qed.

(** The dataset [create_engine] stores is the one [_introspect] queries for
    the dataset keys [None] and [""]; when neither the settings nor the
    instance give one, the query is issued against the name [None]. *)
Theorem create_engine_then_introspect s settings project s1 call dataset_key
    (read_data : string → result (list catalog_row)) objects :
  create_engine s settings = Some (project, s1, call) →
  dataset_key = None ∨ dataset_key = Some "" →
  issued_queries (introspect_dataset read_data (dataset_key, objects) s1).2 =
    issued_queries s
    ++ [catalog_query
          (match settings !! "dataset" with
           | Some d => d
           | None => format_opt (dataset s)
           end) objects]
  ∧ (settings !! "dataset" = None → dataset s = None →
     issued_queries (introspect_dataset read_data (dataset_key, objects) s1).2 =
       issued_queries s ++ [catalog_query "None" objects]).
Proof.
  intros Hengine Hkey.
  assert (dataset s1 = from_option Some (dataset s) (settings !! "dataset")
          ∧ issued_queries s1 = issued_queries s) as [Hd Hq].
  { unfold create_engine in Hengine.
    destruct (settings !! "project") as [p|]; [|done].
    rewrite lookup_delete_ne in Hengine by done.
    destruct (settings !! "dataset") as [d|]; by injection Hengine as <- <- <-. }
  assert (issued_queries (introspect_dataset read_data (dataset_key, objects) s1).2 =
            issued_queries s
            ++ [catalog_query
                  (match settings !! "dataset" with
                   | Some d => d
                   | None => format_opt (dataset s)
                   end) objects]) as Hissued.
  { rewrite introspect_dataset_run.
    assert (dataset_name s1 dataset_key = dataset s1) as ->
      by (unfold dataset_name; by rewrite decide_True).
    rewrite Hd.
    destruct (read_data _); simpl; rewrite Hq; by destruct (settings !! "dataset"). }
  split; [done|]. intros Hnone Hs. by rewrite Hissued, Hnone, Hs.
Qed.

End CreateEngine.

(** ** Runs on the sample inputs *)

Section FurtherExamples.
Import Bigquery Samples.

Lemma introspect_frame_witness :
  lookup_info (_requested_objects (_introspect catalog_t request_sales with_table_t).2)
    None "t" = Some info_plain.
Proof.
  destruct (introspect_frame catalog_t request_sales with_table_t _ _ None "t"
              (surjective_pairing _)) as (_ & Hframe & _).
  rewrite Hframe; [reflexivity|].
  intros (p & d & o & Hp & Hd & Ho).
  apply list_elem_of_singleton in Hp as [= -> ->].
  apply list_elem_of_singleton in Hd. discriminate Hd.
Defined.

Lemma introspect_records_exact_witness :
  ∃ s', _introspect catalog_t request_sales with_table_t = (Ok (), s')
        ∧ lookup_info (_requested_objects s') (Some "sales") "t" = Some info_clustered
        ∧ lookup_info (_requested_objects s') (Some "sales") "u" = Some empty_info.
Proof.
  exists (_introspect catalog_t request_sales with_table_t).2.
  assert (_introspect catalog_t request_sales with_table_t =
            (Ok (), (_introspect catalog_t request_sales with_table_t).2)) as Hrun
    by (vm_compute; reflexivity).
  split; [exact Hrun|].
  assert (NoDup request_sales.*1) as Hnd by apply NoDup_singleton.
  assert (∀ project datasets, (project, datasets) ∈ request_sales → NoDup datasets.*1)
    as Hnds.
  { intros project datasets Hin.
    apply list_elem_of_singleton in Hin as [= -> ->]. apply NoDup_singleton. }
  split.
  - destruct (introspect_records_exact catalog_t request_sales with_table_t _ Hnd Hnds Hrun
                "" [(Some "sales", ["t"; "u"])] (Some "sales") ["t"; "u"] "t")
      as (rows & Hread & Hinfo);
      [apply list_elem_of_here.. |].
    injection Hread as <-. exact Hinfo.
  - destruct (introspect_records_exact catalog_t request_sales with_table_t _ Hnd Hnds Hrun
                "" [(Some "sales", ["t"; "u"])] (Some "sales") ["t"; "u"] "u")
      as (rows & Hread & Hinfo);
      [apply list_elem_of_here | apply list_elem_of_here
       | apply list_elem_of_further, list_elem_of_here |].
    injection Hread as <-. exact Hinfo.
Defined.

Lemma introspect_query_failure_witness :
  (_introspect catalog_sales_only
     [("", [(Some "sales", ["t"]); (Some "hr", ["x"])])] fresh).1 =
    Raise (DatabaseError "unavailable")
  ∧ lookup_info
      (_requested_objects
         (_introspect catalog_sales_only
            [("", [(Some "sales", ["t"]); (Some "hr", ["x"])])] fresh).2)
      (Some "sales") "t" = Some info_clustered
  ∧ issued_queries
      (_introspect catalog_sales_only
         [("", [(Some "sales", ["t"]); (Some "hr", ["x"])])] fresh).2 =
    [catalog_query "sales" ["t"]; catalog_query "hr" ["x"]].
Proof.
  assert (_introspect catalog_sales_only [("", [(Some "sales", ["t"])])] fresh =
            (Ok (), (_introspect catalog_sales_only [("", [(Some "sales", ["t"])])] fresh).2))
    as Hpre by (vm_compute; reflexivity).
  assert (catalog_sales_only (catalog_query (format_opt (dataset_name fresh (Some "hr"))) ["x"])
          = Raise (DatabaseError "unavailable")) as Hread by (vm_compute; reflexivity).
  pose proof (introspect_query_failure catalog_sales_only [(Some "sales", ["t"])]
                (Some "hr") ["x"] [] fresh _ _ Hpre Hread) as Hfail.
  simpl app in Hfail. rewrite Hfail.
  split_and!; vm_compute; reflexivity.
Defined.


Lemma create_table_follows_catalog_witness :
  (create_table_plan sample_render (_introspect catalog_t request_sales fresh).2
     "t" (Some "sales") None false ddl_clustered).1 = ""
  ∧ (create_table_plan sample_render (_introspect catalog_t request_sales fresh).2
       "u" (Some "sales") None false ddl_clustered).1 =
    "DROP VIEW IF EXISTS sales.u;" +:+ LF.
Proof.
  assert (_introspect catalog_t request_sales fresh =
            (Ok (), (_introspect catalog_t request_sales fresh).2)) as Hrun
    by (vm_compute; reflexivity).
  assert (NoDup request_sales.*1) as Hnd by apply NoDup_singleton.
  assert (∀ project datasets, (project, datasets) ∈ request_sales → NoDup datasets.*1)
    as Hnds.
  { intros project datasets Hin.
    apply list_elem_of_singleton in Hin as [= -> ->]. apply NoDup_singleton. }
  split.
  - destruct (create_table_follows_catalog sample_render catalog_t request_sales fresh _
                "" [(Some "sales", ["t"; "u"])] (Some "sales") ["t"; "u"] "t" None false
                ddl_clustered Hnd Hnds Hrun)
      as (rows & Hread & Hdrop & _);
      [apply list_elem_of_here.. |].
    injection Hread as <-. rewrite Hdrop. vm_compute. reflexivity.
  - destruct (create_table_follows_catalog sample_render catalog_t request_sales fresh _
                "" [(Some "sales", ["t"; "u"])] (Some "sales") ["t"; "u"] "u" None false
                ddl_clustered Hnd Hnds Hrun)
      as (rows & Hread & Hdrop & _);
      [apply list_elem_of_here | apply list_elem_of_here
       | apply list_elem_of_further, list_elem_of_here |].
    injection Hread as <-. rewrite Hdrop. vm_compute. reflexivity.
Defined.

Lemma create_table_never_requested_witness :
  create_table_plan sample_render fresh "t" None None false ddl_t =
    ("DROP VIEW IF EXISTS t;" +:+ LF, "CREATE OR REPLACE TABLE t PARTITION BY ts").
Proof.
  rewrite (create_table_never_requested sample_render fresh "t" None None false ddl_t eq_refl).
  vm_compute. reflexivity.
Defined.

Lemma get_ddl_overrides_layout_witness :
  (create_table_plan sample_render with_clustered_t "t" (Some "sales") None false
     (get_ddl ddl_clustered properties_ts)).1 =
  (create_table_plan sample_render with_clustered_t "t" (Some "sales") None false
     (get_ddl ddl_clustered_by_day properties_ts)).1.
Proof.
  apply (get_ddl_overrides_layout sample_render with_clustered_t "t" (Some "sales") None
           false ddl_clustered ddl_clustered_by_day properties_ts).
  - discriminate.
  - reflexivity.
Defined.

Lemma create_table_cluster_order_witness :
  (create_table_plan sample_render with_clustered_t "t" (Some "sales") None false
     ddl_clustered).1 =
  (create_table_plan sample_render with_clustered_t "t" (Some "sales") None false
     ddl_reordered).1.
Proof.
  apply (create_table_cluster_order sample_render with_clustered_t "t" (Some "sales") None
           false ddl_clustered ddl_reordered).
  - intros x. simpl. rewrite !elem_of_cons, !elem_of_nil. tauto.
  - reflexivity.
Defined.

Lemma create_engine_then_introspect_witness :
  issued_queries
    (introspect_dataset catalog_t (None, ["t"]) unconfigured).2 =
    [catalog_query "None" ["t"]].
Proof.
  destruct (create_engine_then_introspect unconfigured settings_acme "acme" unconfigured
              {| engine_url := "bigquery://acme";
                 engine_kwargs := {[ "location" := "EU" ]} |}
              None catalog_t ["t"]) as [_ Hnone].
  - vm_compute. reflexivity.
  - by left.
  - by apply Hnone.
Defined.

End FurtherExamples.
